(** * Incremental QuickBooks sync engine: a shallow embedding

    Sources embedded here:
    - [SyncStateRepository] (sync-state.repository.ts): the [sync_state]
      table and its SQL upserts;
    - [CustomerRepository.batchUpsert], [InvoiceRepository.batchUpsert];
    - [SyncHistoryRepository.create];
    - [CustomerSyncService.sync] (customer-sync.ts) and
      [InvoiceSyncService.sync] (invoice-sync.ts), with [getMaxTimestamp];
    - [QuickBooks.getValidToken] / [QuickBooks.query] (client.ts) and
      [TokenRepository.update].

    Timestamps are epoch milliseconds ([Z]).  A cursor is stored as the ISO
    string produced by [new Date(ms).toISOString()], which is never empty,
    so [cursor || null] keeps it; we store the instant it denotes. *)

From stdpp Require Import base gmap strings list.
From Stdlib Require Import ZArith Lia.

Open Scope Z_scope.

(** ** Shared enums (lib/src/types/index.ts) *)

Inductive ObjectType := CUSTOMER | INVOICE.

Definition objectTypeStr (t : ObjectType) : string :=
  match t with CUSTOMER => "customer" | INVOICE => "invoice" end.

Inductive SyncStatus := PENDING | IN_PROGRESS | SUCCESS | FAILURE.

Inductive SyncHistoryStatus := H_SUCCESS | H_FAILURE | H_PARTIAL.

(** ** The [sync_state] table *)

(** One row; the autoincrement [id] column is not observable by the
    engine and is left out.  [undefined]/[NULL] columns are [None]. *)
Record SyncState := mkSyncState {
  realmId : string;
  objectType : ObjectType;
  lastSyncAttempt : option Z;
  lastSyncSuccess : option Z;
  status : SyncStatus;
  cursor : option Z;
  errorMessage : option string;
  createdAt : option Z;
  updatedAt : option Z
}.

(** The table, keyed by its UNIQUE(realm_id, object_type) constraint. *)
Abbreviation SyncStore := (gmap (string * string) SyncState).

Definition key (realm : string) (ot : ObjectType) : string * string :=
  (realm, objectTypeStr ot).

(** [SyncStateRepository.get]: the row, or the default projection. *)
Definition get (realm : string) (ot : ObjectType) (db : SyncStore) : SyncState :=
  match db !! key realm ot with
  | Some row => row
  | None =>
      {| realmId := realm; objectType := ot; lastSyncAttempt := None;
         lastSyncSuccess := None; status := PENDING; cursor := None;
         errorMessage := None; createdAt := None; updatedAt := None |}
  end.

(** [markInProgress]: INSERT ... ON CONFLICT DO UPDATE SET
    last_sync_attempt, status = 'in_progress', updated_at. *)
Definition markInProgress (realm : string) (ot : ObjectType) (now : Z)
    (db : SyncStore) : SyncStore :=
  match db !! key realm ot with
  | None =>
      <[key realm ot := {| realmId := realm; objectType := ot;
          lastSyncAttempt := Some now; lastSyncSuccess := None;
          status := IN_PROGRESS; cursor := None; errorMessage := None;
          createdAt := Some now; updatedAt := Some now |}]> db
  | Some r =>
      <[key realm ot := {| realmId := realmId r; objectType := objectType r;
          lastSyncAttempt := Some now; lastSyncSuccess := lastSyncSuccess r;
          status := IN_PROGRESS; cursor := cursor r;
          errorMessage := errorMessage r;
          createdAt := createdAt r; updatedAt := Some now |}]> db
  end.

(** [markSuccess]: sets last_sync_success, status = 'success',
    cursor = [cursor || null], error_message = NULL, updated_at. *)
Definition markSuccess (realm : string) (ot : ObjectType) (now : Z)
    (c : option Z) (db : SyncStore) : SyncStore :=
  match db !! key realm ot with
  | None =>
      <[key realm ot := {| realmId := realm; objectType := ot;
          lastSyncAttempt := None; lastSyncSuccess := Some now;
          status := SUCCESS; cursor := c; errorMessage := None;
          createdAt := Some now; updatedAt := Some now |}]> db
  | Some r =>
      <[key realm ot := {| realmId := realmId r; objectType := objectType r;
          lastSyncAttempt := lastSyncAttempt r; lastSyncSuccess := Some now;
          status := SUCCESS; cursor := c; errorMessage := None;
          createdAt := createdAt r; updatedAt := Some now |}]> db
  end.

(** [markFailure]: sets status = 'failure', error_message, updated_at. *)
Definition markFailure (realm : string) (ot : ObjectType) (now : Z)
    (msg : string) (db : SyncStore) : SyncStore :=
  match db !! key realm ot with
  | None =>
      <[key realm ot := {| realmId := realm; objectType := ot;
          lastSyncAttempt := None; lastSyncSuccess := None;
          status := FAILURE; cursor := None; errorMessage := Some msg;
          createdAt := Some now; updatedAt := Some now |}]> db
  | Some r =>
      <[key realm ot := {| realmId := realmId r; objectType := objectType r;
          lastSyncAttempt := lastSyncAttempt r;
          lastSyncSuccess := lastSyncSuccess r;
          status := FAILURE; cursor := cursor r; errorMessage := Some msg;
          createdAt := createdAt r; updatedAt := Some now |}]> db
  end.

(** [reset]: status = 'pending', cursor = NULL, error_message = NULL. *)
Definition reset (realm : string) (ot : ObjectType) (now : Z)
    (db : SyncStore) : SyncStore :=
  match db !! key realm ot with
  | None =>
      <[key realm ot := {| realmId := realm; objectType := ot;
          lastSyncAttempt := None; lastSyncSuccess := None;
          status := PENDING; cursor := None; errorMessage := None;
          createdAt := Some now; updatedAt := Some now |}]> db
  | Some r =>
      <[key realm ot := {| realmId := realmId r; objectType := objectType r;
          lastSyncAttempt := lastSyncAttempt r;
          lastSyncSuccess := lastSyncSuccess r;
          status := PENDING; cursor := None; errorMessage := None;
          createdAt := createdAt r; updatedAt := Some now |}]> db
  end.

(** ** Entity tables: [customers] and [invoices] (keyed by remote id) *)

Record Customer := mkCustomer { cu_id : string; cu_realmId : string; cu_rawData : string }.

Record CustomerRow := mkCustomerRow {
  cr_realmId : string; cr_rawData : string; cr_createdAt : Z; cr_updatedAt : Z }.

Record Invoice := mkInvoice {
  inv_id : string; inv_realmId : string; inv_customerId : option string;
  inv_rawData : string }.

Record InvoiceRow := mkInvoiceRow {
  ir_realmId : string; ir_customerId : option string; ir_rawData : string;
  ir_createdAt : Z; ir_updatedAt : Z }.

(** JavaScript [s || null] on an optional string: the empty string is
    falsy and becomes NULL. *)
Definition or_null (s : option string) : option string :=
  match s with Some "" => None | _ => s end.

(** One [stmt.run] of the customer upsert: INSERT ... ON CONFLICT(id) DO
    UPDATE SET realm_id, raw_data, updated_at (created_at is kept). *)
Definition customerUpsertRow (now : Z) (tbl : gmap string CustomerRow)
    (c : Customer) : gmap string CustomerRow :=
  match tbl !! cu_id c with
  | None => <[cu_id c := mkCustomerRow (cu_realmId c) (cu_rawData c) now now]> tbl
  | Some r =>
      <[cu_id c := mkCustomerRow (cu_realmId c) (cu_rawData c) (cr_createdAt r) now]> tbl
  end.

(** [CustomerRepository.batchUpsert]: early return on an empty batch,
    otherwise one transaction running the statement for each record in
    order, all with the same [now]. *)
Definition customer_batchUpsert (now : Z) (cs : list Customer)
    (tbl : gmap string CustomerRow) : gmap string CustomerRow :=
  match cs with
  | [] => tbl
  | _ => fold_left (customerUpsertRow now) cs tbl
  end.

(** One [stmt.run] of the invoice upsert (customer_id = [customerId || null]). *)
Definition invoiceUpsertRow (now : Z) (tbl : gmap string InvoiceRow)
    (i : Invoice) : gmap string InvoiceRow :=
  match tbl !! inv_id i with
  | None =>
      <[inv_id i := mkInvoiceRow (inv_realmId i) (or_null (inv_customerId i))
                      (inv_rawData i) now now]> tbl
  | Some r =>
      <[inv_id i := mkInvoiceRow (inv_realmId i) (or_null (inv_customerId i))
                      (inv_rawData i) (ir_createdAt r) now]> tbl
  end.

(** [InvoiceRepository.batchUpsert]. *)
Definition invoice_batchUpsert (now : Z) (is : list Invoice)
    (tbl : gmap string InvoiceRow) : gmap string InvoiceRow :=
  match is with
  | [] => tbl
  | _ => fold_left (invoiceUpsertRow now) is tbl
  end.

(** ** The [sync_history] table (append-only) *)

(** The argument of [SyncHistoryRepository.create]. *)
Record SyncHistoryRecord := mkHist {
  h_realmId : string;
  h_objectType : ObjectType;
  h_status : SyncHistoryStatus;
  h_recordsSynced : nat;
  h_recordsFailed : nat;
  h_durationMs : option Z;
  h_cursorBefore : option Z;
  h_cursorAfter : option Z;
  h_errorMessage : option string;
  h_startedAt : Z;
  h_completedAt : option Z
}.

(** A stored row: the record after the [|| null] conversions, plus
    created_at. *)
Record HistoryRow := mkHistoryRow {
  hr_record : SyncHistoryRecord;
  hr_createdAt : Z
}.

Definition z_or_null (z : option Z) : option Z :=
  match z with Some 0 => None | _ => z end.

(** [SyncHistoryRepository.create]: one INSERT, appended to the log. *)
Definition historyCreate (now : Z) (r : SyncHistoryRecord)
    (log : list HistoryRow) : list HistoryRow :=
  log ++ [mkHistoryRow
            (mkHist (h_realmId r) (h_objectType r) (h_status r)
               (h_recordsSynced r) (h_recordsFailed r)
               (z_or_null (h_durationMs r)) (h_cursorBefore r)
               (h_cursorAfter r) (or_null (h_errorMessage r))
               (h_startedAt r) (z_or_null (h_completedAt r))) now].

(** ** Remote records and the new cursor *)

(** A QuickBooks entity as the engines read it: [Id],
    [MetaData?.LastUpdatedTime] (as the instant [new Date(t).getTime()]
    gives, [None] when the field is absent or empty, which the
    [.filter(t => t)] drops), [CustomerRef?.value], and its JSON text. *)
Record QbRecord := mkQb {
  qb_Id : string;
  qb_LastUpdatedTime : option Z;
  qb_CustomerRef : option string;
  qb_json : string
}.

(** [getMaxTimestamp] (same code in both services). *)
Definition getMaxTimestamp (records : list QbRecord) : option Z :=
  match records with
  | [] => None
  | _ =>
      match omap qb_LastUpdatedTime records with
      | [] => None
      | t :: ts => Some (fold_left Z.max ts t)
      end
  end.

(** The query text: [SELECT * FROM T [WHERE Metadata.LastUpdatedTime >
    'cursor'] MAXRESULTS cap]. *)
Inductive Query :=
  | QAll (cap : Z)
  | QSince (c : Z) (cap : Z).

Definition buildQuery (c : option Z) (cap : Z) : Query :=
  match c with Some c => QSince c cap | None => QAll cap end.

(** ** Effects: state passing with exceptions *)

(** The outcome of a computation: a thrown error (with its [message]) or a
    returned value. *)
Inductive Outcome (E A : Type) :=
  | Throw (e : E)
  | Ret (a : A).
Arguments Throw {E A} e.
Arguments Ret {E A} a.

Definition ST (S E A : Type) : Type := S -> Outcome E A * S.

Definition st_ret {S E A} (a : A) : ST S E A := fun s => (Ret a, s).

Definition st_bind {S E A B} (m : ST S E A) (k : A -> ST S E B) : ST S E B :=
  fun s => match m s with
           | (Throw e, s') => (Throw e, s')
           | (Ret a, s') => k a s'
           end.

(** [try { m; k(result) } catch (e) { h(e) }] where [k] handles its own
    exceptions: [h] only sees those raised by [m]. *)
Definition try_then {S E E' A B} (m : ST S E A) (h : E -> ST S E' B)
    (k : A -> ST S E' B) : ST S E' B :=
  fun s => match m s with
           | (Throw e, s') => h e s'
           | (Ret a, s') => k a s'
           end.

Notation "x <- m ;; k" := (st_bind m (fun x => k))
  (at level 95, m at next level, right associativity).
Notation "m ;;; k" := (st_bind m (fun _ => k))
  (at level 95, right associativity).

(** ** The world the engines act on *)

Record World := mkWorld {
  store : SyncStore;
  customers : gmap string CustomerRow;
  invoices : gmap string InvoiceRow;
  history : list HistoryRow
}.

Definition on_store (f : SyncStore -> SyncStore) (w : World) : World :=
  mkWorld (f (store w)) (customers w) (invoices w) (history w).
Definition on_customers (f : gmap string CustomerRow -> gmap string CustomerRow)
    (w : World) : World :=
  mkWorld (store w) (f (customers w)) (invoices w) (history w).
Definition on_invoices (f : gmap string InvoiceRow -> gmap string InvoiceRow)
    (w : World) : World :=
  mkWorld (store w) (customers w) (f (invoices w)) (history w).
Definition on_history (f : list HistoryRow -> list HistoryRow) (w : World) : World :=
  mkWorld (store w) (customers w) (invoices w) (f (history w)).

Abbreviation M A := (ST World string A).

(** A synchronous database call: when the driver throws (fault [Some msg])
    the statement has no effect (SQLite statements and the batch
    transaction are atomic). *)
Definition dbWrite (fault : option string) (f : World -> World) : M unit :=
  fun w => match fault with
           | Some msg => (Throw msg, w)
           | None => (Ret tt, f w)
           end.

Definition dbRead {A} (fault : option string) (f : World -> A) : M A :=
  fun w => match fault with
           | Some msg => (Throw msg, w)
           | None => (Ret (f w), w)
           end.

(** [await this.qb.query(q)] followed by [result.QueryResponse?.T || []]:
    the remote behaviour is a parameter; it rejects with a message or
    yields the list of entities. *)
Definition remoteCall (r : Outcome string (list QbRecord)) : M (list QbRecord) :=
  fun w => (r, w).

(** The environment of one cycle: the remote API, which database calls
    throw (one slot per call site, the [catch] blocks' statements
    included; a persistent fault such as a locked database fills the slot
    of every call it hits), and the clock ([Date.now()] before the remote call reads
    [t_start], after it [t_end]). *)
Record Faults := mkFaults {
  f_markInProgress : option string;
  f_get : option string;
  f_upsert : option string;
  f_markSuccess : option string;
  f_history : option string;
  f_markFailure : option string;
  f_failureHistory : option string
}.

Definition no_faults : Faults := mkFaults None None None None None None None.

Record Env := mkEnv {
  remote : Query -> Outcome string (list QbRecord);
  faults : Faults;
  t_start : Z;
  t_end : Z
}.

(** ** [InvoiceSyncService.sync] (invoice-sync.ts, lines 17-80) *)

Definition toInvoice (realm : string) (r : QbRecord) : Invoice :=
  mkInvoice (qb_Id r) realm (qb_CustomerRef r) (qb_json r).

(** The [try] block. *)
Definition invoice_try (realm : string) (env : Env) : M (nat * nat) :=
  let fl := faults env in
  dbWrite (f_markInProgress fl)
    (on_store (markInProgress realm INVOICE (t_start env))) ;;;
  state <- dbRead (f_get fl) (fun w => get realm INVOICE (store w)) ;;
  let c := cursor state in
  invs <- remoteCall (remote env (buildQuery c 1000)) ;;
  if (length invs =? 0)%nat then
    dbWrite (f_markSuccess fl)
      (on_store (markSuccess realm INVOICE (t_end env) c)) ;;;
    st_ret (0%nat, 0%nat)
  else
    dbWrite (f_upsert fl)
      (on_invoices (invoice_batchUpsert (t_end env)
                      (map (toInvoice realm) invs))) ;;;
    let newCursor := getMaxTimestamp invs in
    dbWrite (f_markSuccess fl)
      (on_store (markSuccess realm INVOICE (t_end env) newCursor)) ;;;
    st_ret (length invs, 0%nat).

(** The [catch] block; its [markFailure] is not guarded, so when it
    throws the error leaves [sync()]. *)
Definition invoice_catch (realm : string) (env : Env) (msg : string)
    : M (nat * nat) :=
  dbWrite (f_markFailure (faults env))
    (on_store (markFailure realm INVOICE (t_end env) msg)) ;;;
  st_ret (0%nat, 1%nat).

Definition invoice_sync (realm : string) (env : Env) : M (nat * nat) :=
  try_then (invoice_try realm env) (invoice_catch realm env) st_ret.

(** ** [CustomerSyncService.sync] (customer-sync.ts, lines 17-142) *)

Definition toCustomer (realm : string) (r : QbRecord) : Customer :=
  mkCustomer (qb_Id r) realm (qb_json r).

(** An exception caught by the [catch] block, with the values the [let]
    variables [cursorBefore] and [recordsSynced] hold at that point. *)
Definition CustomerExn : Type := string * option Z * nat.

Definition tag {A} (cursorBefore : option Z) (recordsSynced : nat) (m : M A)
    : ST World CustomerExn A :=
  fun w => match m w with
           | (Throw e, w') => (Throw (e, cursorBefore, recordsSynced), w')
           | (Ret a, w') => (Ret a, w')
           end.

(** The [try] block. *)
Definition customer_try (realm : string) (maxResults : Z) (env : Env)
    : ST World CustomerExn (nat * nat) :=
  let fl := faults env in
  tag None 0 (dbWrite (f_markInProgress fl)
                (on_store (markInProgress realm CUSTOMER (t_start env)))) ;;;
  state <- tag None 0 (dbRead (f_get fl) (fun w => get realm CUSTOMER (store w))) ;;
  let cursorBefore := cursor state in
  custs <- tag cursorBefore 0
             (remoteCall (remote env (buildQuery cursorBefore maxResults))) ;;
  if (length custs =? 0)%nat then
    tag cursorBefore 0 (dbWrite (f_markSuccess fl)
      (on_store (markSuccess realm CUSTOMER (t_end env) cursorBefore))) ;;;
    let cursorAfter := cursorBefore in
    tag cursorBefore 0 (dbWrite (f_history fl)
      (on_history (historyCreate (t_end env)
         (mkHist realm CUSTOMER H_SUCCESS 0%nat 0%nat
            (Some (t_end env - t_start env)) cursorBefore cursorAfter
            None (t_start env) (Some (t_end env)))))) ;;;
    st_ret (0%nat, 0%nat)
  else
    tag cursorBefore 0 (dbWrite (f_upsert fl)
      (on_customers (customer_batchUpsert (t_end env)
                       (map (toCustomer realm) custs)))) ;;;
    let recordsSynced := length custs in
    let newCursor := getMaxTimestamp custs in
    let cursorAfter := newCursor in
    tag cursorBefore recordsSynced (dbWrite (f_markSuccess fl)
      (on_store (markSuccess realm CUSTOMER (t_end env) newCursor))) ;;;
    tag cursorBefore recordsSynced (dbWrite (f_history fl)
      (on_history (historyCreate (t_end env)
         (mkHist realm CUSTOMER H_SUCCESS recordsSynced 0%nat
            (Some (t_end env - t_start env)) cursorBefore cursorAfter
            None (t_start env) (Some (t_end env)))))) ;;;
    st_ret (length custs, 0%nat).

(** The [catch] block ([recordsFailed = 1], [cursorAfter: cursorBefore]);
    its [markFailure] and [create] are not guarded, so when one of them
    throws the error leaves [sync()]. *)
Definition customer_catch (realm : string) (env : Env)
    (cursorBefore : option Z) (recordsSynced : nat) (msg : string)
    : M (nat * nat) :=
  dbWrite (f_markFailure (faults env))
    (on_store (markFailure realm CUSTOMER (t_end env) msg)) ;;;
  dbWrite (f_failureHistory (faults env)) (on_history (historyCreate (t_end env)
    (mkHist realm CUSTOMER H_FAILURE recordsSynced 1%nat
       (Some (t_end env - t_start env)) cursorBefore cursorBefore
       (Some msg) (t_start env) (Some (t_end env))))) ;;;
  st_ret (0%nat, 1%nat).

Definition customer_sync (realm : string) (maxResults : Z) (env : Env)
    : M (nat * nat) :=
  try_then (customer_try realm maxResults env)
    (fun '(msg, cb, rs) => customer_catch realm env cb rs msg) st_ret.

(** ** Reachable states of the [sync_state] table *)

(** The table after any sequence of the repository's writes. *)
Inductive reachable : SyncStore -> Prop :=
  | reach_empty : reachable ∅
  | reach_inProgress realm ot now db :
      reachable db -> reachable (markInProgress realm ot now db)
  | reach_success realm ot now c db :
      reachable db -> reachable (markSuccess realm ot now c db)
  | reach_failure realm ot now msg db :
      reachable db -> reachable (markFailure realm ot now msg db)
  | reach_reset realm ot now db :
      reachable db -> reachable (reset realm ot now db).

(** ** Tokens and the authenticated client *)

(** A row of the [tokens] table (token.repository.ts, [TokenData]). *)
Record TokenData := mkTokenData {
  td_realmId : string;
  td_accessToken : string;
  td_refreshToken : string;
  td_expiresAt : Z;
  td_createdAt : Z;
  td_updatedAt : Z
}.

(** [Partial<TokenData>] as passed to [update]. *)
Record TokenPatch := mkTokenPatch {
  p_accessToken : option string;
  p_refreshToken : option string;
  p_expiresAt : option Z
}.

(** [TokenRepository.update]: UPDATE tokens SET (each defined field),
    updated_at = now WHERE realm_id = ?; no row, no change. *)
Definition tokenUpdate (realm : string) (patch : TokenPatch) (now : Z)
    (tbl : gmap string TokenData) : gmap string TokenData :=
  match tbl !! realm with
  | None => tbl
  | Some t =>
      <[realm := mkTokenData (td_realmId t)
                   (default (td_accessToken t) (p_accessToken patch))
                   (default (td_refreshToken t) (p_refreshToken patch))
                   (default (td_expiresAt t) (p_expiresAt patch))
                   (td_createdAt t) now]> tbl
  end.

(** The fields of [OAuthTokenResponse] the client reads. *)
Record OAuthTokenResponse := mkOAuth {
  access_token : string;
  refresh_token : string;
  expires_in : Z
}.

(** What the client does outside its own state, in order. *)
Inductive ClientEvent :=
  | EvRefresh (refreshToken : string)   (* refreshAccessToken(rt) *)
  | EvTokenSaved (realm : string)       (* tokenRepository.update *)
  | EvApiGet (bearer : string) (q : string).  (* axios.get with the token *)

Record ClientState := mkClientState {
  tokens : gmap string TokenData;
  events : list ClientEvent
}.

Abbreviation CM A := (ST ClientState string A).

(** The collaborators of one call: the token endpoint, the API, and the
    clock ([Date.now()] in the expiry test, and after the refresh). *)
Record ClientEnv := mkClientEnv {
  refresher : string -> Outcome string OAuthTokenResponse;
  api : string -> string -> Outcome string (list QbRecord);
  nowCheck : Z;
  nowPersist : Z
}.

Definition bufferMs : Z := 5 * 60 * 1000.

Definition noTokensMsg (realm : string) : string :=
  String.append "No tokens found for realm "
    (String.append realm ". Please authorize the app first.").

Definition refreshFailedMsg (e : string) : string :=
  String.append "Token refresh failed. Please re-authorize the app. Error: " e.

Definition callRefresher (ce : ClientEnv) (rt : string) : CM OAuthTokenResponse :=
  fun s => (refresher ce rt, mkClientState (tokens s) (events s ++ [EvRefresh rt])).

Definition saveTokens (realm : string) (patch : TokenPatch) (now : Z) : CM unit :=
  fun s => (Ret tt, mkClientState (tokenUpdate realm patch now (tokens s))
                                 (events s ++ [EvTokenSaved realm])).

Definition throwC {A} (e : string) : CM A := fun s => (Throw e, s).

(** The [try] block of the refresh branch of [getValidToken]. *)
Definition refreshBlock (realm : string) (ce : ClientEnv) (td : TokenData)
    : CM string :=
  refreshed <- callRefresher ce (td_refreshToken td) ;;
  saveTokens realm
    (mkTokenPatch (Some (access_token refreshed)) (Some (refresh_token refreshed))
       (Some (nowPersist ce + expires_in refreshed * 1000)))
    (nowPersist ce) ;;;
  st_ret (access_token refreshed).

(** [QuickBooks.getValidToken] (client.ts, lines 33-70). *)
Definition getValidToken (realm : string) (ce : ClientEnv) : CM string :=
  fun s =>
    match tokens s !! realm with
    | None => throwC (noTokensMsg realm) s
    | Some td =>
        if bool_decide (td_expiresAt td - bufferMs <= nowCheck ce) then
          try_then (refreshBlock realm ce td)
            (fun e => throwC (refreshFailedMsg e)) st_ret s
        else st_ret (td_accessToken td) s
    end.

(** [QuickBooks.get] on [/query]: the request carries the bearer token;
    an API error is rethrown after logging. *)
Definition apiGet (ce : ClientEnv) (token q : string) : CM (list QbRecord) :=
  fun s => (api ce token q, mkClientState (tokens s) (events s ++ [EvApiGet token q])).

(** [QuickBooks.query]. *)
Definition qb_query (realm : string) (ce : ClientEnv) (q : string)
    : CM (list QbRecord) :=
  token <- getValidToken realm ce ;;
  apiGet ce token q.

(** ** Sequences of cycles *)

(** The stored cursor of one engine's row. *)
Definition storedCursor (realm : string) (ot : ObjectType) (w : World) : option Z :=
  cursor (get realm ot (store w)).

Definition storedStatus (realm : string) (ot : ObjectType) (w : World) : SyncStatus :=
  status (get realm ot (store w)).

(** Order on cursors: NULL (never synced) lies below every timestamp. *)
Definition cursor_le (a b : option Z) : Prop :=
  match a, b with
  | None, _ => True
  | Some x, Some y => x <= y
  | Some _, None => False
  end.

(** Each element related to the next. *)
Fixpoint chain {A} (R : A -> A -> Prop) (l : list A) : Prop :=
  match l with
  | x :: ((y :: _) as tl) => R x y /\ chain R tl
  | _ => True
  end.

(** The worlds seen by a sequence of cycles, starting with the initial
    one; [step e w] is the world after one cycle in environment [e]. *)
Fixpoint run (step : Env -> World -> World) (envs : list Env) (w : World)
    : list World :=
  match envs with
  | [] => [w]
  | e :: es => w :: run step es (step e w)
  end.

Definition invoice_step (realm : string) (e : Env) (w : World) : World :=
  snd (invoice_sync realm e w).

Definition customer_step (realm : string) (maxResults : Z) (e : Env)
    (w : World) : World :=
  snd (customer_sync realm maxResults e w).

(** The remote API answers an incremental query only with records whose
    modification time is strictly later than the cursor in the query. *)
Definition fresh_remote (r : Query -> Outcome string (list QbRecord)) : Prop :=
  forall c cap recs, r (QSince c cap) = Ret recs ->
    Forall (fun x => exists t, qb_LastUpdatedTime x = Some t /\ c < t) recs.

(** The cycle raises during the fetch (the remote call rejects) or during
    the storage step (the batch upsert of a non-empty batch throws). *)
Definition fetch_or_store_error (env : Env) (c : option Z) (cap : Z) : Prop :=
  (exists msg, remote env (buildQuery c cap) = Throw msg) \/
  (exists recs msg, remote env (buildQuery c cap) = Ret recs /\ recs <> [] /\
                    f_upsert (faults env) = Some msg).

(** ** Reading the entity tables *)

(** The created_at an upsert gives row [id]: the existing one, or [now]. *)
Definition created_in {Row} (createdOf : Row -> Z) (tbl : gmap string Row)
    (id : string) (now : Z) : Z :=
  match tbl !! id with Some r => createdOf r | None => now end.

(** The last record of a batch carrying remote id [id]. *)
Fixpoint last_rec {Rec} (idOf : Rec -> string) (id : string) (b : list Rec)
    : option Rec :=
  match b with
  | [] => None
  | x :: b' =>
      match last_rec idOf id b' with
      | Some y => Some y
      | None => if decide (idOf x = id) then Some x else None
      end
  end.

(** A table without its updated_at column. *)
Definition customer_strip (tbl : gmap string CustomerRow)
    : gmap string (string * string * Z) :=
  (fun r => (cr_realmId r, cr_rawData r, cr_createdAt r)) <$> tbl.

Definition invoice_strip (tbl : gmap string InvoiceRow)
    : gmap string (string * option string * string * Z) :=
  (fun r => (ir_realmId r, ir_customerId r, ir_rawData r, ir_createdAt r)) <$> tbl.

(** ** Further operations of the repositories *)

#[global] Instance ObjectType_eq_dec : EqDecision ObjectType.
Proof. solve_decision. Defined.

#[global] Instance SyncStatus_eq_dec : EqDecision SyncStatus.
Proof. solve_decision. Defined.

(** JavaScript truthiness of a string: only the empty string is falsy. *)
Definition truthy (s : string) : bool := negb (bool_decide (s = "")).

Module SyncStateRepository.

(** [updateCursor] (sync-state.repository.ts, lines 152-164): UPDATE
    sync_state SET cursor = ?, updated_at = ? WHERE realm_id = ? AND
    object_type = ?; when no row matches, nothing is written.  The ISO
    string argument is stored as the instant it denotes. *)
Definition updateCursor (realm : string) (ot : ObjectType) (now c : Z)
    (db : SyncStore) : SyncStore :=
  match db !! key realm ot with
  | None => db
  | Some r =>
      <[key realm ot := {| realmId := realmId r; objectType := objectType r;
          lastSyncAttempt := lastSyncAttempt r;
          lastSyncSuccess := lastSyncSuccess r;
          status := status r; cursor := Some c; errorMessage := errorMessage r;
          createdAt := createdAt r; updatedAt := Some now |}]> db
  end.

(** [delete] (lines 192-197). *)
Definition delete (realm : string) (ot : ObjectType) (db : SyncStore) : SyncStore :=
  base.delete (key realm ot) db.

(** [deleteByRealmId] (lines 202-207): DELETE FROM sync_state WHERE
    realm_id = ?. *)
Definition deleteByRealmId (realm : string) (db : SyncStore) : SyncStore :=
  filter (fun kv : (string * string) * SyncState => kv.1.1 <> realm) db.

(** [isInProgress] (lines 212-215). *)
Definition isInProgress (realm : string) (ot : ObjectType) (db : SyncStore) : bool :=
  bool_decide (status (get realm ot db) = IN_PROGRESS).

End SyncStateRepository.

Module SyncHistoryRepository.

(** [count(realmId?, objectType?)] (part_003, lines 209-225): the WHERE
    clause on both columns needs [realmId && objectType]; otherwise a
    truthy [realmId] alone filters on the realm; otherwise every row is
    counted.  An [ObjectType] value is a non-empty string, always truthy. *)
Definition count (realm : option string) (ot : option ObjectType)
    (log : list HistoryRow) : nat :=
  match realm, ot with
  | Some r, Some t =>
      if truthy r then
        length (List.filter (fun h => bool_decide (h_realmId (hr_record h) = r /\
                                                  h_objectType (hr_record h) = t)) log)
      else length log
  | Some r, None =>
      if truthy r then
        length (List.filter (fun h => bool_decide (h_realmId (hr_record h) = r)) log)
      else length log
  | None, _ => length log
  end.

Definition msPerDay : Z := 24 * 60 * 60 * 1000.

(** [deleteOlderThan(days)] (lines 192-204): DELETE FROM sync_history
    WHERE started_at < now - days * 86400000; returns [result.changes]
    (here with the rows left). *)
Definition deleteOlderThan (now days : Z) (log : list HistoryRow)
    : nat * list HistoryRow :=
  let cutoffTime := now - days * msPerDay in
  (length (List.filter (fun h => h_startedAt (hr_record h) <? cutoffTime) log),
   List.filter (fun h => negb (h_startedAt (hr_record h) <? cutoffTime)) log).

End SyncHistoryRepository.

Module CustomerRepository.

(** [findById] (customer.repository.ts, lines 76-92). *)
Definition findById (id : string) (tbl : gmap string CustomerRow) : option CustomerRow :=
  tbl !! id.

(** [countByRealmId] (lines 124-135). *)
Definition countByRealmId (realm : string) (tbl : gmap string CustomerRow) : nat :=
  size (filter (fun kv : string * CustomerRow => cr_realmId kv.2 = realm) tbl).

(** [deleteByRealmId] (lines 150-155). *)
Definition deleteByRealmId (realm : string) (tbl : gmap string CustomerRow)
    : gmap string CustomerRow :=
  filter (fun kv : string * CustomerRow => cr_realmId kv.2 <> realm) tbl.

End CustomerRepository.

Module InvoiceRepository.

(** [countByRealmId] (invoice.repository.ts, lines 159-170). *)
Definition countByRealmId (realm : string) (tbl : gmap string InvoiceRow) : nat :=
  size (filter (fun kv : string * InvoiceRow => ir_realmId kv.2 = realm) tbl).

(** [countByCustomerId] (lines 175-186): WHERE customer_id = ? (a NULL
    customer_id equals nothing). *)
Definition countByCustomerId (cid : string) (tbl : gmap string InvoiceRow) : nat :=
  size (filter (fun kv : string * InvoiceRow => ir_customerId kv.2 = Some cid) tbl).

(** [deleteByRealmId] (lines 201-206). *)
Definition deleteByRealmId (realm : string) (tbl : gmap string InvoiceRow)
    : gmap string InvoiceRow :=
  filter (fun kv : string * InvoiceRow => ir_realmId kv.2 <> realm) tbl.

End InvoiceRepository.

Module TokenRepository.

(** [save(data)] (connection.ts, lines 74-98): INSERT ... ON
    CONFLICT(realm_id) DO UPDATE SET access_token, refresh_token,
    expires_at, updated_at (created_at is kept). *)
Definition save (now : Z) (data : TokenData) (tbl : gmap string TokenData)
    : gmap string TokenData :=
  match tbl !! td_realmId data with
  | None =>
      <[td_realmId data := mkTokenData (td_realmId data) (td_accessToken data)
                             (td_refreshToken data) (td_expiresAt data) now now]> tbl
  | Some t =>
      <[td_realmId data := mkTokenData (td_realmId t) (td_accessToken data)
                             (td_refreshToken data) (td_expiresAt data)
                             (td_createdAt t) now]> tbl
  end.

(** [findByRealmId] (lines 103-121). *)
Definition findByRealmId (realm : string) (tbl : gmap string TokenData)
    : option TokenData :=
  tbl !! realm.

(** [delete] (lines 191-196). *)
Definition delete (realm : string) (tbl : gmap string TokenData)
    : gmap string TokenData :=
  base.delete realm tbl.

End TokenRepository.

(** ** [refreshAccessToken] (oauth.ts, part_000, lines 64-88) *)

(** What the code reads of an axios error: [error.response?.data?.error]
    and [error.message]. *)
Record HttpError := mkHttpError {
  response_data_error : option string;
  message : string
}.

(** [`Token refresh failed: ${error.response?.data?.error || error.message}`]
    around the POST to the token endpoint ([post rt]). *)
Definition refreshAccessToken
    (post : string -> Outcome HttpError OAuthTokenResponse) (refreshToken : string)
    : Outcome string OAuthTokenResponse :=
  match post refreshToken with
  | Ret data => Ret data
  | Throw e =>
      Throw (String.append "Token refresh failed: "
               (match response_data_error e with
                | Some s => if truthy s then s else message e
                | None => message e
                end))
  end.

(** ** The worker's cycle ([performSync], part_001, lines 29-98) *)

(** [tokenRepository.getActiveRealmId()] returns [row?.realmId || null];
    [activeRow] is the realm_id of the row its SELECT found.  [statsC] and
    [statsI] are the faults of the two [getStats] reads.  The result is
    the pair [(totalSynced, totalErrors)] the cycle logs, [None] when it
    returns before syncing. *)
Definition performSync (activeRow : option string) (maxResults : Z)
    (envC envI : Env) (statsC statsI : option string) (w : World)
    : option (nat * nat) * World :=
  match or_null activeRow with
  | None => (None, w)
  | Some realm =>
      let '(rc, w1) := customer_sync realm maxResults envC w in
      let '(synced1, errors1) :=
        match rc with
        | Ret (s, e) =>
            match statsC with None => (s, e) | Some _ => (s, S e) end
        | Throw _ => (0%nat, 1%nat)
        end in
      let '(ri, w2) := invoice_sync realm envI w1 in
      let '(synced2, errors2) :=
        match ri with
        | Ret (s, e) =>
            match statsI with
            | None => (synced1 + s, errors1 + e)%nat
            | Some _ => (synced1 + s, S (errors1 + e))%nat
            end
        | Throw _ => (synced1, S errors1)
        end in
      (Some (synced2, errors2), w2)
  end.

(** The count a thrown [getStats] call adds to the error total. *)
Definition fault_count (f : option string) : nat :=
  match f with Some _ => 1%nat | None => 0%nat end.

(** The errors one engine adds to the worker's total, read off how its
    [sync()] ended: one when it rejected (its [getStats] is then skipped);
    otherwise one when the row ended failed, plus one when [getStats]
    threw. *)
Definition cycle_errors {A} (o : Outcome string A) (st : SyncStatus)
    (stats : option string) : nat :=
  match o with
  | Throw _ => 1%nat
  | Ret _ => ((if bool_decide (st = FAILURE) then 1 else 0) + fault_count stats)%nat
  end.

(** ** The sync-history script's [parseArgs] (part_007, lines 27-54) *)

Section ParseArgs.

(** [parseInt(s, 10)] and the number [10], kept abstract. *)
Context {Num : Type}.
Variable parseInt : string -> Num.
Variable ten : Num.

Record Options := mkOptions {
  full : bool;
  limit : Num;
  optObjectType : option ObjectType
}.

(** The [for] loop: [--limit] and [--type] consume the next argument
    ([i++]); [args[i + 1] || '10'] is ["10"] past the end or on an empty
    string; other arguments are skipped. *)
Fixpoint parseArgs_loop (args : list string) (o : Options) : Options :=
  match args with
  | [] => o
  | a :: rest =>
      if bool_decide (a = "--full") then
        parseArgs_loop rest (mkOptions true (limit o) (optObjectType o))
      else if bool_decide (a = "--limit") then
        match rest with
        | [] => mkOptions (full o) (parseInt "10") (optObjectType o)
        | v :: rest' =>
            parseArgs_loop rest'
              (mkOptions (full o) (parseInt (if truthy v then v else "10"))
                 (optObjectType o))
        end
      else if bool_decide (a = "--type") then
        match rest with
        | [] => o
        | v :: rest' =>
            parseArgs_loop rest'
              (if bool_decide (v = "customer") then
                 mkOptions (full o) (limit o) (Some CUSTOMER)
               else if bool_decide (v = "invoice") then
                 mkOptions (full o) (limit o) (Some INVOICE)
               else o)
        end
      else parseArgs_loop rest o
  end.

Definition parseArgs (args : list string) : Options :=
  parseArgs_loop args (mkOptions false ten None).

End ParseArgs.

(** ** The bootstrap script (part_007, lines 330-412) *)

Definition newline : string := String (Ascii.ascii_of_nat 10) EmptyString.

(** [validateConfig] (config.ts, lines 34-47). *)
Definition validateConfig (clientId clientSecret : string) : Outcome string unit :=
  let errors :=
    (if truthy clientId then [] else ["QB_CLIENT_ID is required"]) ++
    (if truthy clientSecret then [] else ["QB_CLIENT_SECRET is required"]) in
  match errors with
  | [] => Ret tt
  | _ => Throw (String.append "Configuration validation failed:"
                 (String.append newline (String.concat newline errors)))
  end.

(** How the script ends: [process.exit(0)], [process.exit(1)], or by
    returning after saving the tokens. *)
Inductive Exit := Exit0 | Exit1 | Completed.

(** The script's inputs: the credentials, [QB_AUTHORIZATION_CODE] and
    [QB_REALM_ID], the answer typed at the overwrite prompt, the token
    exchange, and the clock ([Date.now()] in [expiresAt], then in [save]). *)
Record BootEnv := mkBootEnv {
  b_clientId : string;
  b_clientSecret : string;
  b_authCode : option string;
  b_realmId : option string;
  b_answer : string;
  b_exchange : string -> string -> Outcome string OAuthTokenResponse;
  b_nowExpires : Z;
  b_nowSave : Z
}.

Definition opt_truthy (s : option string) : bool :=
  match s with Some s => truthy s | None => false end.

(** [bootstrap()]; [toLowerCase] is [String.prototype.toLowerCase]. *)
Definition bootstrap (toLowerCase : string -> string) (be : BootEnv)
    (tbl : gmap string TokenData) : Exit * gmap string TokenData :=
  match validateConfig (b_clientId be) (b_clientSecret be) with
  | Throw _ => (Exit1, tbl)
  | Ret _ =>
      match b_authCode be, b_realmId be with
      | Some authCode, Some realm =>
          if truthy authCode && truthy realm then
            let go :=
              match TokenRepository.findByRealmId realm tbl with
              | None => true
              | Some _ => bool_decide (toLowerCase (b_answer be) = "yes")
              end in
            if go then
              match b_exchange be authCode realm with
              | Throw _ => (Exit1, tbl)
              | Ret tokens =>
                  (Completed,
                   TokenRepository.save (b_nowSave be)
                     (mkTokenData realm (access_token tokens) (refresh_token tokens)
                        (b_nowExpires be + expires_in tokens * 1000) 0 0) tbl)
              end
            else (Exit0, tbl)
          else (Exit1, tbl)
      | _, _ => (Exit1, tbl)
      end
  end.

(** ** Concrete inputs *)

(** A remote company holding [data]: [QAll cap] returns the first [cap]
    records, [QSince c cap] the first [cap] records modified after [c]. *)
Definition newer_than (c : Z) (x : QbRecord) : bool :=
  match qb_LastUpdatedTime x with Some t => Z.ltb c t | None => false end.

Definition remote_of (data : list QbRecord) (q : Query)
    : Outcome string (list QbRecord) :=
  match q with
  | QAll cap => Ret (firstn (Z.to_nat cap) data)
  | QSince c cap => Ret (firstn (Z.to_nat cap) (List.filter (newer_than c) data))
  end.

Definition rec_at (id : string) (t : Z) : QbRecord := mkQb id (Some t) None "{}".

(** Three customers modified at t1 = 1 < t2 = 2 < t3 = 3. *)
Definition data3 : list QbRecord := [rec_at "1" 1; rec_at "2" 2; rec_at "3" 3].

Definition world0 : World := mkWorld ∅ ∅ ∅ [].

Definition env_at (r : Query -> Outcome string (list QbRecord)) (t : Z) : Env :=
  mkEnv r no_faults t (t + 5).

(** The remote API is unreachable. *)
Definition remote_down (q : Query) : Outcome string (list QbRecord) :=
  Throw "network error".

(** The remote returns one record without [MetaData.LastUpdatedTime]. *)
Definition remote_no_ts (q : Query) : Outcome string (list QbRecord) :=
  Ret [mkQb "9" None None "{}"].

(** The remote gains a fourth record. *)
Definition data4 : list QbRecord := data3 ++ [rec_at "4" 4].

Definition upsert_fails : Faults := mkFaults None None (Some "disk full") None None None None.

(** A row after a successful cycle that reached cursor 3. *)
Definition row3 : SyncState :=
  {| realmId := "r"; objectType := INVOICE; lastSyncAttempt := Some 10;
     lastSyncSuccess := Some 15; status := SUCCESS; cursor := Some 3;
     errorMessage := None; createdAt := Some 10; updatedAt := Some 15 |}.

(** A token row expiring at time 1000000, and a token endpoint that
    rotates to the pair ("A2", "R2"). *)
Definition token1 : TokenData := mkTokenData "r" "A1" "R1" 1000000 0 0.

Definition client_env : ClientEnv :=
  mkClientEnv (fun _ => Ret (mkOAuth "A2" "R2" 3600)) (fun _ _ => Ret [])
    1000000 1000001.

(** Database calls that throw. *)
Definition markSuccess_fails : Faults :=
  mkFaults None None None (Some "locked") None None None.
Definition history_fails : Faults :=
  mkFaults None None None None (Some "disk full") None None.
Definition markInProgress_fails : Faults :=
  mkFaults (Some "locked") None None None None None None.

(** Every insert into sync_history fails (a full disk on its table). *)
Definition history_down : Faults :=
  mkFaults None None None None (Some "disk full") None (Some "disk full").

(** The database is locked after the cycle's first two statements: every
    later write throws. *)
Definition db_locked : Faults :=
  mkFaults None None (Some "locked") (Some "locked") (Some "locked")
    (Some "locked") (Some "locked").

(** A token endpoint that rejects every refresh token. *)
Definition refresh_rejects : ClientEnv :=
  mkClientEnv (fun _ => Throw "invalid_grant") (fun _ _ => Ret []) 1000000 1000001.

(** The bootstrap script with valid settings for realm "r", an exchange
    that returns ("A1", "R1"), and the given answer at the prompt. *)
Definition boot_env (answer : string) : BootEnv :=
  mkBootEnv "id" "secret" (Some "code") (Some "r") answer
    (fun _ _ => Ret (mkOAuth "A1" "R1" 3600)) 100 200.

(** ** Lemmas: the store operations *)

Lemma get_markInProgress realm ot now db :
  get realm ot (markInProgress realm ot now db) =
  {| realmId := realmId (get realm ot db); objectType := objectType (get realm ot db);
     lastSyncAttempt := Some now;
     lastSyncSuccess := lastSyncSuccess (get realm ot db);
     status := IN_PROGRESS; cursor := cursor (get realm ot db);
     errorMessage := errorMessage (get realm ot db);
     createdAt := match db !! key realm ot with
                  | Some r => createdAt r | None => Some now end;
     updatedAt := Some now |}.
Proof.
  unfold get, markInProgress.
  destruct (db !! key realm ot); by rewrite lookup_insert_eq.
Qed.

Lemma cursor_markInProgress realm ot now db :
  cursor (get realm ot (markInProgress realm ot now db)) = cursor (get realm ot db).
Proof. by rewrite get_markInProgress. Qed.

Lemma cursor_markFailure realm ot now msg db :
  cursor (get realm ot (markFailure realm ot now msg db)) = cursor (get realm ot db).
Proof.
  unfold get, markFailure.
  destruct (db !! key realm ot); by rewrite lookup_insert_eq.
Qed.

Lemma get_markSuccess realm ot now c db :
  status (get realm ot (markSuccess realm ot now c db)) = SUCCESS /\
  cursor (get realm ot (markSuccess realm ot now c db)) = c /\
  errorMessage (get realm ot (markSuccess realm ot now c db)) = None.
Proof.
  unfold get, markSuccess.
  destruct (db !! key realm ot); by rewrite lookup_insert_eq.
Qed.

Lemma status_markFailure realm ot now msg db :
  status (get realm ot (markFailure realm ot now msg db)) = FAILURE.
Proof.
  unfold get, markFailure.
  destruct (db !! key realm ot); by rewrite lookup_insert_eq.
Qed.

(** The error-message invariant the code does maintain: a message is only
    present on a failed row or on a failed row that a new cycle has
    marked in progress. *)
Definition err_ok (r : SyncState) : Prop :=
  errorMessage r <> None -> status r = FAILURE \/ status r = IN_PROGRESS.

Definition store_err_ok (db : SyncStore) : Prop :=
  forall k r, db !! k = Some r -> err_ok r.

Lemma store_err_ok_insert db k r :
  store_err_ok db -> err_ok r -> store_err_ok (<[k := r]> db).
Proof.
  intros Hdb Hr k' r'. rewrite lookup_insert.
  case_decide; [intros [= <-]; exact Hr | apply Hdb].
Qed.

Lemma reachable_err_ok db : reachable db -> store_err_ok db.
Proof.
  induction 1.
  - intros k r. by rewrite lookup_empty.
  - unfold markInProgress.
    destruct (db !! key realm ot) as [r|] eqn:E;
      apply store_err_ok_insert; auto; intros _; simpl; auto.
  - unfold markSuccess.
    destruct (db !! key realm ot);
      apply store_err_ok_insert; auto; intros []; reflexivity.
  - unfold markFailure.
    destruct (db !! key realm ot);
      apply store_err_ok_insert; auto; intros _; simpl; auto.
  - unfold reset.
    destruct (db !! key realm ot);
      apply store_err_ok_insert; auto; intros []; reflexivity.
Qed.

Lemma status_markSuccess realm ot now c db :
  status (get realm ot (markSuccess realm ot now c db)) = SUCCESS.
Proof. apply get_markSuccess. Qed.

Lemma cursor_markSuccess realm ot now c db :
  cursor (get realm ot (markSuccess realm ot now c db)) = c.
Proof. apply get_markSuccess. Qed.

(** ** Lemmas: running one cycle *)

(** Unfold a cycle and split on every database fault, the remote answer
    and the empty-batch test. *)
Ltac run_sync :=
  unfold invoice_sync, invoice_try, invoice_catch, customer_sync, customer_try,
    customer_catch, tag, try_then, st_bind, dbWrite, dbRead, remoteCall,
    st_ret, storedCursor, storedStatus in *;
  repeat (cbn [fst snd store customers invoices history on_store on_customers
            on_invoices on_history] in *;
          rewrite ?cursor_markInProgress in *; simpl in *;
          match goal with
          | |- context [match ?f with Some _ => _ | None => _ end] =>
              let E := fresh "Ef" in destruct f eqn:E
          | |- context [match ?r with Throw _ => _ | Ret _ => _ end] =>
              let E := fresh "Er" in destruct r eqn:E
          | |- context [if (?n =? 0)%nat then _ else _] =>
              let E := fresh "En" in destruct (n =? 0)%nat eqn:E
          end);
  cbn [fst snd store customers invoices history on_store on_customers
       on_invoices on_history] in *;
  rewrite ?status_markFailure, ?cursor_markFailure, ?status_markSuccess,
    ?cursor_markSuccess, ?cursor_markInProgress in *.

Lemma invoice_sync_cases realm env w :
  let c := storedCursor realm INVOICE w in
  let w' := snd (invoice_sync realm env w) in
  (storedStatus realm INVOICE w' = SUCCESS /\
   exists recs, remote env (buildQuery c 1000) = Ret recs /\
     storedCursor realm INVOICE w' =
       (if (length recs =? 0)%nat then c else getMaxTimestamp recs))
  \/ storedCursor realm INVOICE w' = c.
Proof.
  intros c w'. subst c w'. run_sync.
  all: first [ right; reflexivity
             | left; split; [reflexivity | eexists; split; [reflexivity|]];
               rewrite ?En; reflexivity ].
Qed.

Lemma customer_sync_success realm maxResults env w :
  let c := storedCursor realm CUSTOMER w in
  let w' := snd (customer_sync realm maxResults env w) in
  storedStatus realm CUSTOMER w' = SUCCESS ->
  (exists recs, remote env (buildQuery c maxResults) = Ret recs /\
     storedCursor realm CUSTOMER w' =
       (if (length recs =? 0)%nat then c else getMaxTimestamp recs))
  \/ storedCursor realm CUSTOMER w' = c.
Proof.
  intros c w'. subst c w'. run_sync.
  all: intros H; try discriminate H.
  all: first [ right; reflexivity
             | left; eexists; split; [reflexivity|]; rewrite ?En; reflexivity ].
Qed.

(** ** Lemmas: the new cursor *)

Lemma fold_left_max_ge (l : list Z) (a : Z) : a <= fold_left Z.max l a.
Proof.
  revert a; induction l as [|x l IH]; intros a; simpl; [lia|].
  specialize (IH (Z.max a x)). lia.
Qed.

Lemma getMaxTimestamp_fresh (c : Z) (recs : list QbRecord) :
  recs <> [] ->
  Forall (fun x => exists t, qb_LastUpdatedTime x = Some t /\ c < t) recs ->
  exists m, getMaxTimestamp recs = Some m /\ c < m.
Proof.
  intros Hne Hall. destruct recs as [|x xs]; [congruence|].
  inversion Hall as [|? ? [t [Ht Hct]] _]; subst.
  unfold getMaxTimestamp. simpl. rewrite Ht.
  exists (fold_left Z.max (omap qb_LastUpdatedTime xs) t). split; [done|].
  pose proof (fold_left_max_ge (omap qb_LastUpdatedTime xs) t). lia.
Qed.

Lemma cursor_le_refl c : cursor_le c c.
Proof. destruct c; simpl; lia. Qed.

(** One successful cycle against a fresh remote never moves the cursor
    back. *)
Lemma fresh_cycle_cursor_le (c c' : option Z) (cap : Z)
    (r : Query -> Outcome string (list QbRecord)) (recs : list QbRecord) :
  fresh_remote r ->
  r (buildQuery c cap) = Ret recs ->
  c' = (if (length recs =? 0)%nat then c else getMaxTimestamp recs) ->
  cursor_le c c'.
Proof.
  intros Hfr Hr ->.
  destruct (length recs =? 0)%nat eqn:En; [apply cursor_le_refl|].
  destruct c as [c|]; [|exact I].
  assert (recs <> []) by (intros ->; discriminate En).
  destruct (getMaxTimestamp_fresh c recs) as [m [-> Hm]]; auto.
  - exact (Hfr c cap recs Hr).
  - simpl; lia.
Qed.

Lemma run_chain (step : Env -> World -> World) (P : Env -> Prop)
    (Q : World -> Prop) (R : option Z -> option Z -> Prop)
    (f : World -> option Z) :
  (forall e w, P e -> Q (step e w) -> R (f w) (f (step e w))) ->
  forall envs w, Forall P envs -> Forall Q (tail (run step envs w)) ->
  chain R (map f (run step envs w)).
Proof.
  intros Hstep envs. induction envs as [|e es IH]; intros w HP HQ; [exact I|].
  inversion HP as [|? ? He Hes]; subst.
  simpl in HQ |- *.
  destruct es as [|e' es'].
  - simpl in *. inversion HQ; subst. split; [apply Hstep; auto | exact I].
  - simpl in HQ |- *. inversion HQ as [|? ? Hq Hqs]; subst.
    split; [apply Hstep; auto|].
    specialize (IH (step e w) Hes). simpl in IH. apply IH. exact Hqs.
Qed.

(** ** Claims *)

(** C1 (cursor monotonicity).  For both engines: along any sequence of
    cycles that all end with status success, against a remote that only
    returns records modified strictly after the query's cursor, the
    stored cursor never decreases; and a successful cycle whose query
    returned no records leaves the cursor exactly as it was. *)
Theorem cursor_monotone :
  (forall realm envs w,
     Forall (fun e => fresh_remote (remote e)) envs ->
     Forall (fun w' => storedStatus realm INVOICE w' = SUCCESS)
       (tail (run (invoice_step realm) envs w)) ->
     chain cursor_le (map (storedCursor realm INVOICE) (run (invoice_step realm) envs w))) /\
  (forall realm maxResults envs w,
     Forall (fun e => fresh_remote (remote e)) envs ->
     Forall (fun w' => storedStatus realm CUSTOMER w' = SUCCESS)
       (tail (run (customer_step realm maxResults) envs w)) ->
     chain cursor_le (map (storedCursor realm CUSTOMER)
                        (run (customer_step realm maxResults) envs w))) /\
  (forall realm env w,
     remote env (buildQuery (storedCursor realm INVOICE w) 1000) = Ret [] ->
     storedStatus realm INVOICE (invoice_step realm env w) = SUCCESS ->
     storedCursor realm INVOICE (invoice_step realm env w) = storedCursor realm INVOICE w) /\
  (forall realm maxResults env w,
     remote env (buildQuery (storedCursor realm CUSTOMER w) maxResults) = Ret [] ->
     storedStatus realm CUSTOMER (customer_step realm maxResults env w) = SUCCESS ->
     storedCursor realm CUSTOMER (customer_step realm maxResults env w) =
       storedCursor realm CUSTOMER w).
Proof.
  split; [|split; [|split]].
  - intros realm. apply run_chain.
    intros e w Hfr Hs. unfold invoice_step in *.
    destruct (invoice_sync_cases realm e w) as [[_ [recs [Hr Hc]]] | Hc].
    + exact (fresh_cycle_cursor_le _ _ _ _ _ Hfr Hr Hc).
    + rewrite Hc. apply cursor_le_refl.
  - intros realm maxResults. apply run_chain.
    intros e w Hfr Hs. unfold customer_step in *.
    destruct (customer_sync_success realm maxResults e w Hs) as [[recs [Hr Hc]] | Hc].
    + exact (fresh_cycle_cursor_le _ _ _ _ _ Hfr Hr Hc).
    + rewrite Hc. apply cursor_le_refl.
  - intros realm env w H0 Hs. unfold invoice_step in *.
    destruct (invoice_sync_cases realm env w) as [[_ [recs [Hr Hc]]] | Hc].
    + rewrite H0 in Hr. injection Hr as <-. exact Hc.
    + exact Hc.
  - intros realm maxResults env w H0 Hs. unfold customer_step in *.
    destruct (customer_sync_success realm maxResults env w Hs) as [[recs [Hr Hc]] | Hc].
    + rewrite H0 in Hr. injection Hr as <-. exact Hc.
    + exact Hc.
Qed.

(** C2 (failure preserves cursor and lastSyncSuccess).  On an existing
    row, [markFailure] sets status failure and the error message and keeps
    cursor and lastSyncSuccess; a cycle of either engine that raises
    during fetch or storage leaves the stored cursor as it was. *)
Theorem failure_preserves_cursor :
  (forall realm ot now msg (db : SyncStore) r,
     db !! key realm ot = Some r ->
     let r' := get realm ot (markFailure realm ot now msg db) in
     status r' = FAILURE /\ errorMessage r' = Some msg /\
     cursor r' = cursor r /\ lastSyncSuccess r' = lastSyncSuccess r) /\
  (forall realm env w,
     fetch_or_store_error env (storedCursor realm INVOICE w) 1000 ->
     storedCursor realm INVOICE (invoice_step realm env w) = storedCursor realm INVOICE w) /\
  (forall realm maxResults env w,
     fetch_or_store_error env (storedCursor realm CUSTOMER w) maxResults ->
     storedCursor realm CUSTOMER (customer_step realm maxResults env w) =
       storedCursor realm CUSTOMER w).
Proof.
  split; [|split].
  - intros realm ot now msg db r Hr r'. subst r'.
    unfold get, markFailure. rewrite Hr, lookup_insert_eq. simpl. done.
  - intros realm env w Herr. unfold invoice_step, fetch_or_store_error in *.
    run_sync; try reflexivity.
    all: destruct Herr as [[m Hm] | [recs [m [Hm [Hne Hu]]]]]; try congruence.
    all: rewrite Hm in Er; injection Er as ->;
         destruct recs; [contradiction | discriminate].
  - intros realm maxResults env w Herr. unfold customer_step, fetch_or_store_error in *.
    run_sync; try reflexivity.
    all: destruct Herr as [[m Hm] | [recs [m [Hm [Hne Hu]]]]]; try congruence.
    all: rewrite Hm in Er; injection Er as ->;
         destruct recs; [contradiction | discriminate].
Qed.

Lemma omap_all_none (recs : list QbRecord) :
  Forall (fun x => qb_LastUpdatedTime x = None) recs ->
  omap qb_LastUpdatedTime recs = [].
Proof. induction 1 as [|x xs Hx _ IH]; simpl; [done|]. by rewrite Hx. Qed.

Lemma getMaxTimestamp_none (recs : list QbRecord) :
  Forall (fun x => qb_LastUpdatedTime x = None) recs ->
  getMaxTimestamp recs = None.
Proof.
  intros H. unfold getMaxTimestamp. rewrite (omap_all_none recs H).
  by destruct recs.
Qed.

(** C3 (what the code does with a batch without timestamps).  When every
    fetched record lacks [MetaData.LastUpdatedTime], the records are
    upserted and [markSuccess] is called with [undefined], which
    [cursor || null] stores as NULL: the cursor is cleared, not kept. *)
Theorem timestampless_batch_clears_cursor :
  (forall realm env w recs,
     faults env = no_faults ->
     remote env (buildQuery (storedCursor realm INVOICE w) 1000) = Ret recs ->
     recs <> [] ->
     Forall (fun x => qb_LastUpdatedTime x = None) recs ->
     storedCursor realm INVOICE (invoice_step realm env w) = None /\
     invoices (invoice_step realm env w) =
       invoice_batchUpsert (t_end env) (map (toInvoice realm) recs) (invoices w)) /\
  (forall realm maxResults env w recs,
     faults env = no_faults ->
     remote env (buildQuery (storedCursor realm CUSTOMER w) maxResults) = Ret recs ->
     recs <> [] ->
     Forall (fun x => qb_LastUpdatedTime x = None) recs ->
     storedCursor realm CUSTOMER (customer_step realm maxResults env w) = None /\
     customers (customer_step realm maxResults env w) =
       customer_batchUpsert (t_end env) (map (toCustomer realm) recs) (customers w)).
Proof.
  split.
  - intros realm env w recs Hf Hr Hne Hts.
    unfold invoice_step, storedCursor in *.
    unfold invoice_sync, invoice_try, try_then, st_bind, dbWrite, dbRead,
      remoteCall, st_ret. rewrite Hf. simpl. rewrite cursor_markInProgress, Hr.
    destruct recs as [|x xs]; [congruence|]. simpl.
    rewrite cursor_markSuccess. split; [|done].
    exact (getMaxTimestamp_none _ Hts).
  - intros realm maxResults env w recs Hf Hr Hne Hts.
    unfold customer_step, storedCursor in *.
    unfold customer_sync, customer_try, tag, try_then, st_bind, dbWrite, dbRead,
      remoteCall, st_ret. rewrite Hf. simpl. rewrite cursor_markInProgress, Hr.
    destruct recs as [|x xs]; [congruence|]. simpl.
    rewrite cursor_markSuccess. split; [|done].
    exact (getMaxTimestamp_none _ Hts).
Qed.

(** C4 (what the engine boundary does with exceptions).  When the [try]
    block of either engine throws, the [catch] block runs; if its own
    writes succeed, [sync()] returns [{synced: 0, errors: 1}] after
    [markFailure] with the exception's message (and, for the customer
    engine, the failure row).  But those writes are not guarded: when the
    [catch] block's [markFailure] throws, [sync()] rejects with that error
    and the row keeps what the [try] block left (in progress after a
    successful [markInProgress]); when the customer engine's failure
    [create] throws, [sync()] rejects and no history row is written. *)
Theorem catch_write_fault_escapes :
  (forall realm env w msg w1,
     invoice_try realm env w = (Throw msg, w1) ->
     (f_markFailure (faults env) = None ->
      invoice_sync realm env w =
        (Ret (0%nat, 1%nat), on_store (markFailure realm INVOICE (t_end env) msg) w1)) /\
     (forall m, f_markFailure (faults env) = Some m ->
      invoice_sync realm env w = (Throw m, w1))) /\
  (forall realm maxResults env w msg cb rs w1,
     customer_try realm maxResults env w = (Throw (msg, cb, rs), w1) ->
     let w2 := on_store (markFailure realm CUSTOMER (t_end env) msg) w1 in
     (f_markFailure (faults env) = None -> f_failureHistory (faults env) = None ->
      customer_sync realm maxResults env w =
        (Ret (0%nat, 1%nat),
         on_history (historyCreate (t_end env)
           (mkHist realm CUSTOMER H_FAILURE rs 1%nat
              (Some (t_end env - t_start env)) cb cb
              (Some msg) (t_start env) (Some (t_end env)))) w2)) /\
     (forall m, f_markFailure (faults env) = Some m ->
      customer_sync realm maxResults env w = (Throw m, w1)) /\
     (forall m, f_markFailure (faults env) = None -> f_failureHistory (faults env) = Some m ->
      customer_sync realm maxResults env w = (Throw m, w2))).
Proof.
  split.
  - intros realm env w msg w1 H.
    unfold invoice_sync, try_then. rewrite H.
    unfold invoice_catch, st_bind, dbWrite, st_ret.
    split; [intros -> | intros m ->]; reflexivity.
  - intros realm maxResults env w msg cb rs w1 H w2.
    unfold customer_sync, try_then. rewrite H.
    unfold customer_catch, st_bind, dbWrite, st_ret.
    split; [intros -> -> | split; [intros m -> | intros m -> ->]]; reflexivity.
Qed.

(** C5 (what the code does with the history log).  The invoice engine
    never writes the history log.  A customer cycle that returns a result
    appends exactly one history row, with equal cursor slots on a failed
    cycle; a customer cycle that rejects (a [catch] write threw) appends
    none. *)
Theorem history_rows_per_cycle :
  (forall realm env w, history (invoice_step realm env w) = history w) /\
  (forall realm maxResults env w res,
     fst (customer_sync realm maxResults env w) = Ret res ->
     exists h, history (customer_step realm maxResults env w) = history w ++ [h] /\
       (h_status (hr_record h) = H_FAILURE ->
        h_cursorBefore (hr_record h) = h_cursorAfter (hr_record h))) /\
  (forall realm maxResults env w m,
     fst (customer_sync realm maxResults env w) = Throw m ->
     history (customer_step realm maxResults env w) = history w).
Proof.
  split; [|split].
  - intros realm env w. unfold invoice_step. run_sync; reflexivity.
  - intros realm maxResults env w res Hres. unfold customer_step. revert Hres. run_sync.
    all: intros Hres; try discriminate Hres.
    all: unfold historyCreate; eexists; split;
         [reflexivity | simpl; first [reflexivity | discriminate]].
  - intros realm maxResults env w m Hm. unfold customer_step. revert Hm. run_sync.
    all: intros Hm; first [discriminate Hm | reflexivity].
Qed.

(** C8 (empty-result cycle).  When the database calls succeed and the
    query returns no records, each engine calls [markSuccess] with the
    pre-cycle cursor and returns [{synced: 0, errors: 0}]; the row ends
    with status success and the same cursor (NULL stays NULL). *)
Theorem empty_cycle_keeps_cursor :
  (forall realm env w,
     faults env = no_faults ->
     remote env (buildQuery (storedCursor realm INVOICE w) 1000) = Ret [] ->
     invoice_sync realm env w =
       (Ret (0%nat, 0%nat),
        on_store (markSuccess realm INVOICE (t_end env) (storedCursor realm INVOICE w)
                  ∘ markInProgress realm INVOICE (t_start env)) w) /\
     storedStatus realm INVOICE (invoice_step realm env w) = SUCCESS /\
     storedCursor realm INVOICE (invoice_step realm env w) = storedCursor realm INVOICE w) /\
  (forall realm maxResults env w,
     faults env = no_faults ->
     remote env (buildQuery (storedCursor realm CUSTOMER w) maxResults) = Ret [] ->
     fst (customer_sync realm maxResults env w) = Ret (0%nat, 0%nat) /\
     store (customer_step realm maxResults env w) =
       markSuccess realm CUSTOMER (t_end env) (storedCursor realm CUSTOMER w)
         (markInProgress realm CUSTOMER (t_start env) (store w)) /\
     storedStatus realm CUSTOMER (customer_step realm maxResults env w) = SUCCESS /\
     storedCursor realm CUSTOMER (customer_step realm maxResults env w) =
       storedCursor realm CUSTOMER w).
Proof.
  split.
  - intros realm env w Hf Hr. unfold invoice_step, storedCursor, storedStatus in *.
    unfold invoice_sync, invoice_try, try_then, st_bind, dbWrite, dbRead,
      remoteCall, st_ret. rewrite Hf. simpl. rewrite cursor_markInProgress, Hr.
    simpl. rewrite status_markSuccess, cursor_markSuccess. done.
  - intros realm maxResults env w Hf Hr.
    unfold customer_step, storedCursor, storedStatus in *.
    unfold customer_sync, customer_try, tag, try_then, st_bind, dbWrite, dbRead,
      remoteCall, st_ret. rewrite Hf. simpl. rewrite cursor_markInProgress, Hr.
    simpl. rewrite status_markSuccess, cursor_markSuccess. done.
Qed.

(** ** Lemmas: batch upserts *)

Section BatchUpsert.
  Context {Rec Row : Type}.
  Variable idOf : Rec -> string.
  Variable mkRow : Rec -> Z -> Z -> Row.
  Variable createdOf : Row -> Z.
  Hypothesis created_mkRow : forall x c u, createdOf (mkRow x c u) = c.
  Variable up : Z -> gmap string Row -> Rec -> gmap string Row.
  Hypothesis up_eq : forall t tbl x,
    up t tbl x = <[idOf x := mkRow x (created_in createdOf tbl (idOf x) t) t]> tbl.

Lemma last_rec_snoc id b x :
    last_rec idOf id (b ++ [x]) =
      if decide (idOf x = id) then Some x else last_rec idOf id b.
  Proof.
    induction b as [|y b IH]; simpl.
    - by destruct (decide (idOf x = id)).
    - rewrite IH. destruct (decide (idOf x = id)); [done|].
      by destruct (last_rec idOf id b).
  Qed.

Lemma fold_up_lookup t b tbl id :
    fold_left (up t) b tbl !! id =
      match last_rec idOf id b with
      | None => tbl !! id
      | Some x => Some (mkRow x (created_in createdOf tbl id t) t)
      end.
  Proof.
    induction b as [|x b IH] using rev_ind; [done|].
    rewrite fold_left_app, last_rec_snoc. simpl. rewrite up_eq, lookup_insert.
    destruct (decide (idOf x = id)) as [<-|Hne].
    - f_equal. f_equal.
      unfold created_in at 1. rewrite IH.
      destruct (last_rec idOf (idOf x) b); [by rewrite created_mkRow|done].
    - exact IH.
  Qed.

Lemma fold_up_twice t1 t2 b tbl id :
    fold_left (up t2) b (fold_left (up t1) b tbl) !! id =
      match last_rec idOf id b with
      | None => tbl !! id
      | Some x => Some (mkRow x (created_in createdOf tbl id t1) t2)
      end.
  Proof.
    rewrite !fold_up_lookup. destruct (last_rec idOf id b) as [x|] eqn:E; [|done].
    unfold created_in at 1. rewrite fold_up_lookup, E, created_mkRow. done.
  Qed.
End BatchUpsert.

Lemma customer_up_eq t tbl c :
  customerUpsertRow t tbl c =
    <[cu_id c := mkCustomerRow (cu_realmId c) (cu_rawData c)
                   (created_in cr_createdAt tbl (cu_id c) t) t]> tbl.
Proof. unfold customerUpsertRow, created_in. by destruct (tbl !! cu_id c). Qed.

Lemma invoice_up_eq t tbl i :
  invoiceUpsertRow t tbl i =
    <[inv_id i := mkInvoiceRow (inv_realmId i) (or_null (inv_customerId i))
                    (inv_rawData i) (created_in ir_createdAt tbl (inv_id i) t) t]> tbl.
Proof. unfold invoiceUpsertRow, created_in. by destruct (tbl !! inv_id i). Qed.

Lemma customer_batchUpsert_fold t b tbl :
  customer_batchUpsert t b tbl = fold_left (customerUpsertRow t) b tbl.
Proof. by destruct b. Qed.

Lemma invoice_batchUpsert_fold t b tbl :
  invoice_batchUpsert t b tbl = fold_left (invoiceUpsertRow t) b tbl.
Proof. by destruct b. Qed.

Lemma customer_lookup t b tbl id :
  customer_batchUpsert t b tbl !! id =
    match last_rec cu_id id b with
    | None => tbl !! id
    | Some x => Some (mkCustomerRow (cu_realmId x) (cu_rawData x)
                        (created_in cr_createdAt tbl id t) t)
    end.
Proof.
  rewrite customer_batchUpsert_fold.
  apply (fold_up_lookup cu_id (fun x => mkCustomerRow (cu_realmId x) (cu_rawData x))
           cr_createdAt (fun _ _ _ => eq_refl) customerUpsertRow customer_up_eq).
Qed.

Lemma customer_lookup_twice t1 t2 b tbl id :
  customer_batchUpsert t2 b (customer_batchUpsert t1 b tbl) !! id =
    match last_rec cu_id id b with
    | None => tbl !! id
    | Some x => Some (mkCustomerRow (cu_realmId x) (cu_rawData x)
                        (created_in cr_createdAt tbl id t1) t2)
    end.
Proof.
  rewrite !customer_batchUpsert_fold.
  apply (fold_up_twice cu_id (fun x => mkCustomerRow (cu_realmId x) (cu_rawData x))
           cr_createdAt (fun _ _ _ => eq_refl) customerUpsertRow customer_up_eq).
Qed.

Lemma invoice_lookup t b tbl id :
  invoice_batchUpsert t b tbl !! id =
    match last_rec inv_id id b with
    | None => tbl !! id
    | Some x => Some (mkInvoiceRow (inv_realmId x) (or_null (inv_customerId x))
                        (inv_rawData x) (created_in ir_createdAt tbl id t) t)
    end.
Proof.
  rewrite invoice_batchUpsert_fold.
  apply (fold_up_lookup inv_id
           (fun x => mkInvoiceRow (inv_realmId x) (or_null (inv_customerId x)) (inv_rawData x))
           ir_createdAt (fun _ _ _ => eq_refl) invoiceUpsertRow invoice_up_eq).
Qed.

Lemma invoice_lookup_twice t1 t2 b tbl id :
  invoice_batchUpsert t2 b (invoice_batchUpsert t1 b tbl) !! id =
    match last_rec inv_id id b with
    | None => tbl !! id
    | Some x => Some (mkInvoiceRow (inv_realmId x) (or_null (inv_customerId x))
                        (inv_rawData x) (created_in ir_createdAt tbl id t1) t2)
    end.
Proof.
  rewrite !invoice_batchUpsert_fold.
  apply (fold_up_twice inv_id
           (fun x => mkInvoiceRow (inv_realmId x) (or_null (inv_customerId x)) (inv_rawData x))
           ir_createdAt (fun _ _ _ => eq_refl) invoiceUpsertRow invoice_up_eq).
Qed.

(** C9, corrected (idempotent batch upsert).  For both repositories:
    one application keys rows by remote id, each id of the batch taking
    the realm, customer reference and payload of its last record in the
    batch (other rows untouched); a second application with the same
    batch changes nothing but the updated_at column, which takes the
    second call's time, so at equal clock values the tables coincide. *)
Theorem batchUpsert_idempotent :
  (forall t b tbl id,
     customer_batchUpsert t b tbl !! id =
       match last_rec cu_id id b with
       | None => tbl !! id
       | Some x => Some (mkCustomerRow (cu_realmId x) (cu_rawData x)
                           (created_in cr_createdAt tbl id t) t)
       end) /\
  (forall t1 t2 b tbl,
     customer_strip (customer_batchUpsert t2 b (customer_batchUpsert t1 b tbl)) =
     customer_strip (customer_batchUpsert t1 b tbl)) /\
  (forall t b tbl,
     customer_batchUpsert t b (customer_batchUpsert t b tbl) =
     customer_batchUpsert t b tbl) /\
  (forall t b tbl id,
     invoice_batchUpsert t b tbl !! id =
       match last_rec inv_id id b with
       | None => tbl !! id
       | Some x => Some (mkInvoiceRow (inv_realmId x) (or_null (inv_customerId x))
                           (inv_rawData x) (created_in ir_createdAt tbl id t) t)
       end) /\
  (forall t1 t2 b tbl,
     invoice_strip (invoice_batchUpsert t2 b (invoice_batchUpsert t1 b tbl)) =
     invoice_strip (invoice_batchUpsert t1 b tbl)) /\
  (forall t b tbl,
     invoice_batchUpsert t b (invoice_batchUpsert t b tbl) =
     invoice_batchUpsert t b tbl).
Proof.
  split; [|split; [|split; [|split; [|split]]]].
  - apply customer_lookup.
  - intros t1 t2 b tbl. apply map_eq. intros id. unfold customer_strip.
    rewrite !lookup_fmap, customer_lookup_twice, customer_lookup.
    by destruct (last_rec cu_id id b).
  - intros t b tbl. apply map_eq. intros id.
    rewrite customer_lookup_twice, customer_lookup. done.
  - apply invoice_lookup.
  - intros t1 t2 b tbl. apply map_eq. intros id. unfold invoice_strip.
    rewrite !lookup_fmap, invoice_lookup_twice, invoice_lookup.
    by destruct (last_rec inv_id id b).
  - intros t b tbl. apply map_eq. intros id.
    rewrite invoice_lookup_twice, invoice_lookup. done.
Qed.

(** C9, counterexample: after upserting customer "1" at time 1 and again
    at time 2, its row has created_at 1 and updated_at 2, while a single
    upsert at any time t gives a row with created_at = updated_at = t. *)
Lemma batchUpsert_twice_not_once :
  customer_batchUpsert 2 [mkCustomer "1" "r" "{}"]
    (customer_batchUpsert 1 [mkCustomer "1" "r" "{}"] ∅) !! "1" =
    Some (mkCustomerRow "r" "{}" 1 2) /\
  (forall t, customer_batchUpsert t [mkCustomer "1" "r" "{}"] ∅ !! "1" =
     Some (mkCustomerRow "r" "{}" t t)).
Proof.
  split.
  - rewrite customer_lookup_twice. reflexivity.
  - intros t. rewrite customer_lookup. reflexivity.
Qed.

(** C7, corrected (errorMessage invariant).  In every row reachable by
    markInProgress, markSuccess, markFailure and reset, a non-null error
    message comes with status failure or in_progress (a failed row that a
    new cycle has marked in progress keeps its message); markSuccess and
    reset always leave the row's error message null. *)
Theorem errorMessage_invariant :
  (forall db, reachable db ->
     forall k r, db !! k = Some r -> errorMessage r <> None ->
     status r = FAILURE \/ status r = IN_PROGRESS) /\
  (forall realm ot now c db,
     errorMessage (get realm ot (markSuccess realm ot now c db)) = None) /\
  (forall realm ot now db,
     errorMessage (get realm ot (reset realm ot now db)) = None).
Proof.
  split; [|split].
  - intros db Hdb k r Hk. exact (reachable_err_ok db Hdb k r Hk).
  - intros. apply get_markSuccess.
  - intros realm ot now db. unfold get, reset.
    destruct (db !! key realm ot); by rewrite lookup_insert_eq.
Qed.

(** C7, counterexample: a failure followed by markInProgress leaves the
    message "boom" on a row whose status is in_progress. *)
Lemma errorMessage_in_progress_counterexample :
  reachable (markInProgress "r" INVOICE 2 (markFailure "r" INVOICE 1 "boom" ∅)) /\
  markInProgress "r" INVOICE 2 (markFailure "r" INVOICE 1 "boom" ∅) !! key "r" INVOICE =
    Some {| realmId := "r"; objectType := INVOICE; lastSyncAttempt := Some 2;
            lastSyncSuccess := None; status := IN_PROGRESS; cursor := None;
            errorMessage := Some "boom"; createdAt := Some 1; updatedAt := Some 2 |}.
Proof.
  split; [repeat constructor | vm_compute; reflexivity].
Qed.

(** C10, corrected (markInProgress frame).  On an existing row,
    markInProgress sets status in_progress and lastSyncAttempt and
    updatedAt to now; realmId, objectType, cursor, lastSyncSuccess,
    errorMessage and createdAt keep their values, and other rows are
    untouched. *)
Theorem markInProgress_frame :
  forall realm ot now (db : SyncStore) r,
    db !! key realm ot = Some r ->
    markInProgress realm ot now db !! key realm ot =
      Some {| realmId := realmId r; objectType := objectType r;
              lastSyncAttempt := Some now; lastSyncSuccess := lastSyncSuccess r;
              status := IN_PROGRESS; cursor := cursor r;
              errorMessage := errorMessage r; createdAt := createdAt r;
              updatedAt := Some now |} /\
    (forall k, k <> key realm ot -> markInProgress realm ot now db !! k = db !! k).
Proof.
  intros realm ot now db r Hr. unfold markInProgress. rewrite Hr. split.
  - apply lookup_insert_eq.
  - intros k Hk. by apply lookup_insert_ne.
Qed.

(** C10, counterexample: on the row [row3] (updatedAt 15), markInProgress
    at time 20 also sets updatedAt to 20, besides status and
    lastSyncAttempt. *)
Lemma markInProgress_touches_updatedAt :
  updatedAt row3 = Some 15 /\
  markInProgress "r" INVOICE 20 {[key "r" INVOICE := row3]} !! key "r" INVOICE =
    Some {| realmId := "r"; objectType := INVOICE; lastSyncAttempt := Some 20;
            lastSyncSuccess := Some 15; status := IN_PROGRESS; cursor := Some 3;
            errorMessage := None; createdAt := Some 10; updatedAt := Some 20 |}.
Proof.
  split; [reflexivity|].
  unfold markInProgress. rewrite lookup_singleton_eq, lookup_insert_eq. reflexivity.
Qed.

(** C6 (token lifecycle of the client).  With no token row, [query]
    fails with the authorization-required error and makes no request.
    Within 5 minutes of expiry it calls the refresher with the stored
    refresh token, stores the new access and refresh tokens, and only
    then sends the request with the new access token.  Otherwise it sends
    the stored access token and leaves the token table alone. *)
Theorem token_lifecycle :
  forall realm ce q,
  (forall s, tokens s !! realm = None ->
     qb_query realm ce q s = (Throw (noTokensMsg realm), s)) /\
  (forall s td resp,
     tokens s !! realm = Some td ->
     td_expiresAt td - bufferMs <= nowCheck ce ->
     refresher ce (td_refreshToken td) = Ret resp ->
     let s' := snd (qb_query realm ce q s) in
     fst (qb_query realm ce q s) = api ce (access_token resp) q /\
     events s' = events s ++ [EvRefresh (td_refreshToken td); EvTokenSaved realm;
                              EvApiGet (access_token resp) q] /\
     tokens s' !! realm =
       Some (mkTokenData (td_realmId td) (access_token resp) (refresh_token resp)
               (nowPersist ce + expires_in resp * 1000) (td_createdAt td)
               (nowPersist ce))) /\
  (forall s td,
     tokens s !! realm = Some td ->
     nowCheck ce < td_expiresAt td - bufferMs ->
     qb_query realm ce q s =
       (api ce (td_accessToken td) q,
        mkClientState (tokens s) (events s ++ [EvApiGet (td_accessToken td) q]))).
Proof.
  intros realm ce q. split; [|split].
  - intros s Hs. unfold qb_query, st_bind, getValidToken. rewrite Hs. reflexivity.
  - intros s td resp Hs Hexp Hr. unfold qb_query, st_bind, getValidToken.
    rewrite Hs, bool_decide_eq_true_2 by exact Hexp.
    unfold try_then, refreshBlock, st_bind, callRefresher. rewrite Hr.
    simpl. rewrite <- !app_assoc. simpl.
    split; [reflexivity | split; [reflexivity|]].
    unfold tokenUpdate. rewrite Hs. simpl. apply lookup_insert_eq.
  - intros s td Hs Hexp. unfold qb_query, st_bind, getValidToken.
    rewrite Hs, bool_decide_eq_false_2 by lia. reflexivity.
Qed.

(** ** Witnesses *)

Lemma Forall_firstn_of {A} (P : A -> Prop) (n : nat) (l : list A) :
  Forall P l -> Forall P (firstn n l).
Proof.
  revert l; induction n as [|n IH]; intros l H; [constructor|].
  destruct H; simpl; constructor; auto.
Qed.

(** The concrete remote answers incremental queries with newer records
    only. *)
Lemma remote_of_fresh (data : list QbRecord) : fresh_remote (remote_of data).
Proof.
  intros c cap recs H. simpl in H. injection H as <-.
  apply Forall_firstn_of, List.Forall_forall. intros x Hx.
  apply filter_In in Hx as [_ Hx]. unfold newer_than in Hx.
  destruct (qb_LastUpdatedTime x) as [t|]; [|discriminate].
  exists t. split; [done|]. apply Z.ltb_lt, Hx.
Qed.

(** C1 on the spec's scenario: a full sync of three records, then an
    incremental cycle that finds nothing new. *)
Lemma cursor_monotone_witness :
  chain cursor_le (map (storedCursor "r" INVOICE)
    (run (invoice_step "r") [env_at (remote_of data3) 10; env_at (remote_of data3) 20] world0)) /\
  chain cursor_le (map (storedCursor "r" CUSTOMER)
    (run (customer_step "r" 1000) [env_at (remote_of data3) 10; env_at (remote_of data3) 20] world0)) /\
  storedCursor "r" INVOICE (invoice_step "r" (env_at (remote_of data3) 20)
    (invoice_step "r" (env_at (remote_of data3) 10) world0)) = Some 3 /\
  storedCursor "r" CUSTOMER (customer_step "r" 1000 (env_at (remote_of data3) 20)
    (customer_step "r" 1000 (env_at (remote_of data3) 10) world0)) = Some 3.
Proof.
  split; [|split; [|split]].
  - apply (proj1 cursor_monotone).
    + repeat constructor; apply remote_of_fresh.
    + vm_compute. repeat constructor.
  - apply (proj1 (proj2 cursor_monotone)).
    + repeat constructor; apply remote_of_fresh.
    + vm_compute. repeat constructor.
  - rewrite (proj1 (proj2 (proj2 cursor_monotone))); [vm_compute; reflexivity
      | vm_compute; reflexivity | vm_compute; reflexivity].
  - rewrite (proj2 (proj2 (proj2 cursor_monotone))); [vm_compute; reflexivity
      | vm_compute; reflexivity | vm_compute; reflexivity].
Defined.

(** C2 on concrete inputs: a failure on the cursor-3 row, a cycle with
    the network down after a first sync, a customer cycle whose upsert
    fails. *)
Lemma failure_preserves_cursor_witness :
  (status (get "r" INVOICE (markFailure "r" INVOICE 20 "boom" {[key "r" INVOICE := row3]}))
     = FAILURE /\
   errorMessage (get "r" INVOICE (markFailure "r" INVOICE 20 "boom" {[key "r" INVOICE := row3]}))
     = Some "boom" /\
   cursor (get "r" INVOICE (markFailure "r" INVOICE 20 "boom" {[key "r" INVOICE := row3]}))
     = cursor row3 /\
   lastSyncSuccess (get "r" INVOICE (markFailure "r" INVOICE 20 "boom" {[key "r" INVOICE := row3]}))
     = lastSyncSuccess row3) /\
  storedCursor "r" INVOICE (invoice_step "r" (env_at remote_down 20)
    (invoice_step "r" (env_at (remote_of data3) 10) world0)) =
  storedCursor "r" INVOICE (invoice_step "r" (env_at (remote_of data3) 10) world0) /\
  storedCursor "r" CUSTOMER (customer_step "r" 1000 (mkEnv (remote_of data4) upsert_fails 30 35)
    (customer_step "r" 1000 (env_at (remote_of data3) 10) world0)) =
  storedCursor "r" CUSTOMER (customer_step "r" 1000 (env_at (remote_of data3) 10) world0).
Proof.
  split; [|split].
  - apply (proj1 failure_preserves_cursor). apply lookup_singleton_eq.
  - apply (proj1 (proj2 failure_preserves_cursor)).
    left. exists "network error". reflexivity.
  - apply (proj2 (proj2 failure_preserves_cursor)).
    right. exists [rec_at "4" 4], "disk full". vm_compute. split; [reflexivity|].
    split; [discriminate | reflexivity].
Defined.

(** C3 at the failing input: after a first sync the cursor is 3; the next
    invoice cycle fetches one record without a timestamp and the cursor
    becomes NULL (the next cycle is a full resync). *)
Lemma timestampless_batch_clears_cursor_witness :
  storedCursor "r" INVOICE (invoice_step "r" (env_at (remote_of data3) 10) world0) = Some 3 /\
  storedCursor "r" INVOICE (invoice_step "r" (env_at remote_no_ts 20)
    (invoice_step "r" (env_at (remote_of data3) 10) world0)) = None /\
  storedCursor "r" CUSTOMER (customer_step "r" 1000 (env_at remote_no_ts 20)
    (customer_step "r" 1000 (env_at (remote_of data3) 10) world0)) = None.
Proof.
  split; [vm_compute; reflexivity|split].
  - apply (proj1 timestampless_batch_clears_cursor
             "r" (env_at remote_no_ts 20)
             (invoice_step "r" (env_at (remote_of data3) 10) world0)
             [mkQb "9" None None "{}"]);
      [reflexivity | reflexivity | discriminate | repeat constructor].
  - apply (proj2 timestampless_batch_clears_cursor
             "r" 1000 (env_at remote_no_ts 20)
             (customer_step "r" 1000 (env_at (remote_of data3) 10) world0)
             [mkQb "9" None None "{}"]);
      [reflexivity | reflexivity | discriminate | repeat constructor].
Defined.

(** C4 at the failing input: the database is locked after the first two
    statements of a cycle on three new records.  The upsert throws, the
    [catch] block's [markFailure] throws too, [sync()] of either engine
    rejects with "locked" and the row stays in progress; the customer
    engine writes no history row. *)
Lemma catch_write_fault_escapes_witness :
  invoice_sync "r" (mkEnv (remote_of data3) db_locked 10 15) world0 =
    (Throw "locked", on_store (markInProgress "r" INVOICE 10) world0) /\
  storedStatus "r" INVOICE (on_store (markInProgress "r" INVOICE 10) world0) = IN_PROGRESS /\
  customer_sync "r" 1000 (mkEnv (remote_of data3) db_locked 10 15) world0 =
    (Throw "locked", on_store (markInProgress "r" CUSTOMER 10) world0) /\
  history (on_store (markInProgress "r" CUSTOMER 10) world0) = [].
Proof.
  split; [|split; [|split]].
  - apply (proj2 (proj1 catch_write_fault_escapes "r" (mkEnv (remote_of data3) db_locked 10 15)
             world0 "locked" (on_store (markInProgress "r" INVOICE 10) world0)
             ltac:(vm_compute; reflexivity)) "locked").
    reflexivity.
  - vm_compute. reflexivity.
  - apply (proj1 (proj2 (proj2 catch_write_fault_escapes "r" 1000
             (mkEnv (remote_of data3) db_locked 10 15) world0 "locked" None 0%nat
             (on_store (markInProgress "r" CUSTOMER 10) world0)
             ltac:(vm_compute; reflexivity))) "locked").
    reflexivity.
  - reflexivity.
Defined.

(** C5 on a customer cycle that syncs three records. *)
Lemma history_rows_per_cycle_witness :
  exists h, history (customer_step "r" 1000 (env_at (remote_of data3) 10) world0) =
              history world0 ++ [h] /\
    (h_status (hr_record h) = H_FAILURE ->
     h_cursorBefore (hr_record h) = h_cursorAfter (hr_record h)).
Proof.
  apply (proj1 (proj2 history_rows_per_cycle) "r" 1000 (env_at (remote_of data3) 10) world0
           (3%nat, 0%nat)).
  vm_compute. reflexivity.
Defined.

(** C8 on concrete inputs: after a first sync to cursor 3 nothing newer
    exists, and the second cycle of each engine keeps cursor 3. *)
Lemma empty_cycle_keeps_cursor_witness :
  storedCursor "r" INVOICE (invoice_step "r" (env_at (remote_of data3) 20)
    (invoice_step "r" (env_at (remote_of data3) 10) world0)) = Some 3 /\
  storedCursor "r" CUSTOMER (customer_step "r" 1000 (env_at (remote_of data3) 20)
    (customer_step "r" 1000 (env_at (remote_of data3) 10) world0)) = Some 3.
Proof.
  split.
  - rewrite (proj2 (proj2 (proj1 empty_cycle_keeps_cursor "r" (env_at (remote_of data3) 20)
               (invoice_step "r" (env_at (remote_of data3) 10) world0)
               eq_refl ltac:(vm_compute; reflexivity)))).
    vm_compute. reflexivity.
  - rewrite (proj2 (proj2 (proj2 (proj2 empty_cycle_keeps_cursor "r" 1000
               (env_at (remote_of data3) 20)
               (customer_step "r" 1000 (env_at (remote_of data3) 10) world0)
               eq_refl ltac:(vm_compute; reflexivity))))).
    vm_compute. reflexivity.
Defined.

(** C7 on the row of a failed cycle that a new cycle marked in progress. *)
Lemma errorMessage_invariant_witness :
  status (get "r" INVOICE (markInProgress "r" INVOICE 2 (markFailure "r" INVOICE 1 "boom" ∅)))
    = FAILURE \/
  status (get "r" INVOICE (markInProgress "r" INVOICE 2 (markFailure "r" INVOICE 1 "boom" ∅)))
    = IN_PROGRESS.
Proof.
  apply (proj1 errorMessage_invariant
           (markInProgress "r" INVOICE 2 (markFailure "r" INVOICE 1 "boom" ∅))
           ltac:(repeat constructor) (key "r" INVOICE)).
  - vm_compute. reflexivity.
  - vm_compute. discriminate.
Defined.

(** C10 on the row [row3]. *)
Lemma markInProgress_frame_witness :
  markInProgress "r" INVOICE 20 {[key "r" INVOICE := row3]} !! key "r" INVOICE =
    Some {| realmId := "r"; objectType := INVOICE; lastSyncAttempt := Some 20;
            lastSyncSuccess := Some 15; status := IN_PROGRESS; cursor := Some 3;
            errorMessage := None; createdAt := Some 10; updatedAt := Some 20 |}.
Proof.
  apply (proj1 (markInProgress_frame "r" INVOICE 20 {[key "r" INVOICE := row3]} row3
                  (lookup_singleton_eq _ _))).
Defined.

(** C6 on concrete inputs: no token row; the token [token1] at its expiry
    time (refreshed to "A2"/"R2"); the same token an hour earlier. *)
Lemma token_lifecycle_witness :
  qb_query "r" client_env "SELECT * FROM Customer" (mkClientState ∅ []) =
    (Throw (noTokensMsg "r"), mkClientState ∅ []) /\
  events (snd (qb_query "r" client_env "SELECT * FROM Customer" (mkClientState {["r" := token1]} []))) =
    [EvRefresh "R1"; EvTokenSaved "r"; EvApiGet "A2" "SELECT * FROM Customer"] /\
  qb_query "r" (mkClientEnv (fun _ => Ret (mkOAuth "A2" "R2" 3600)) (fun _ _ => Ret [])
                  (1000000 - 3600000) 0)
    "SELECT * FROM Customer" (mkClientState {["r" := token1]} []) =
    (Ret [], mkClientState {["r" := token1]} [EvApiGet "A1" "SELECT * FROM Customer"]).
Proof.
  split; [|split].
  - apply (proj1 (token_lifecycle "r" client_env "SELECT * FROM Customer")). reflexivity.
  - apply (proj1 (proj2 (proj1 (proj2 (token_lifecycle "r" client_env "SELECT * FROM Customer"))
             (mkClientState {["r" := token1]} []) token1 (mkOAuth "A2" "R2" 3600)
             (lookup_singleton_eq _ _) ltac:(unfold bufferMs; simpl; lia) eq_refl))).
  - rewrite (proj2 (proj2 (token_lifecycle "r" (mkClientEnv
               (fun _ => Ret (mkOAuth "A2" "R2" 3600)) (fun _ _ => Ret [])
               (1000000 - 3600000) 0) "SELECT * FROM Customer"))
               (mkClientState {["r" := token1]} []) token1 (lookup_singleton_eq _ _)
               ltac:(unfold bufferMs; simpl; lia)).
    reflexivity.
Defined.

(** ** Further properties of the repositories, the engines, the client and the scripts *)

(** ** Lemmas: other rows of the store *)

Lemma markInProgress_other realm ot now db k :
  k <> key realm ot -> markInProgress realm ot now db !! k = db !! k.
Proof. intros Hk. unfold markInProgress. destruct (db !! key realm ot); by rewrite lookup_insert_ne. Qed.

Lemma markSuccess_other realm ot now c db k :
  k <> key realm ot -> markSuccess realm ot now c db !! k = db !! k.
Proof. intros Hk. unfold markSuccess. destruct (db !! key realm ot); by rewrite lookup_insert_ne. Qed.

Lemma markFailure_other realm ot now msg db k :
  k <> key realm ot -> markFailure realm ot now msg db !! k = db !! k.
Proof. intros Hk. unfold markFailure. destruct (db !! key realm ot); by rewrite lookup_insert_ne. Qed.

(** The default row [get] returns for a missing key. *)
Lemma get_None realm ot db :
  db !! key realm ot = None ->
  get realm ot db =
    {| realmId := realm; objectType := ot; lastSyncAttempt := None;
       lastSyncSuccess := None; status := PENDING; cursor := None;
       errorMessage := None; createdAt := None; updatedAt := None |}.
Proof. unfold get. intros ->. reflexivity. Qed.

(** A cycle of either engine that returns gives the pair matching the
    status it leaves; one that rejects does so with the error of a write
    of its [catch] block. *)
Lemma invoice_sync_result realm env w :
  match fst (invoice_sync realm env w) with
  | Ret (s, e) =>
      (e = 0%nat /\ storedStatus realm INVOICE (invoice_step realm env w) = SUCCESS) \/
      (s = 0%nat /\ e = 1%nat /\
       storedStatus realm INVOICE (invoice_step realm env w) = FAILURE)
  | Throw m => f_markFailure (faults env) = Some m
  end.
Proof.
  unfold invoice_step. destruct (invoice_sync realm env w) as [o w'] eqn:Hs.
  simpl. revert Hs. run_sync.
  all: intros Hs; inversion Hs; subst; simpl; rewrite ?status_markFailure, ?status_markSuccess.
  all: first [ left; split; reflexivity | right; split; [|split]; reflexivity
             | reflexivity ].
Qed.

Lemma customer_sync_result realm maxResults env w :
  match fst (customer_sync realm maxResults env w) with
  | Ret (s, e) =>
      (e = 0%nat /\ storedStatus realm CUSTOMER (customer_step realm maxResults env w) = SUCCESS) \/
      (s = 0%nat /\ e = 1%nat /\
       storedStatus realm CUSTOMER (customer_step realm maxResults env w) = FAILURE)
  | Throw m =>
      f_markFailure (faults env) = Some m \/
      (f_markFailure (faults env) = None /\ f_failureHistory (faults env) = Some m)
  end.
Proof.
  unfold customer_step. destruct (customer_sync realm maxResults env w) as [o w'] eqn:Hs.
  simpl. revert Hs. run_sync.
  all: intros Hs; inversion Hs; subst; simpl; rewrite ?status_markFailure, ?status_markSuccess.
  all: first [ left; split; reflexivity | right; split; [|split]; reflexivity
             | left; reflexivity | right; split; reflexivity ].
Qed.

(** X2 ([SyncStateRepository.delete]).  After deleting a pair's row,
    [get] returns the default pending row without cursor, so the next
    query of that pair is a full (unfiltered) one, [isInProgress] is
    false, and the rows of other pairs are unchanged. *)
Theorem syncState_delete_resets :
  forall realm ot db cap,
    get realm ot (SyncStateRepository.delete realm ot db) =
      {| realmId := realm; objectType := ot; lastSyncAttempt := None;
         lastSyncSuccess := None; status := PENDING; cursor := None;
         errorMessage := None; createdAt := None; updatedAt := None |} /\
    buildQuery (cursor (get realm ot (SyncStateRepository.delete realm ot db))) cap = QAll cap /\
    SyncStateRepository.isInProgress realm ot (SyncStateRepository.delete realm ot db) = false /\
    (forall k, k <> key realm ot -> SyncStateRepository.delete realm ot db !! k = db !! k).
Proof.
  intros realm ot db cap. unfold SyncStateRepository.isInProgress, SyncStateRepository.delete.
  rewrite get_None by apply lookup_delete_eq.
  split; [done|split; [done|split; [done|]]].
  intros k Hk. by rewrite lookup_delete_ne.
Qed.

(** X3 ([SyncStateRepository.deleteByRealmId]).  After deleting a realm,
    [get] returns the default row for both object types of that realm,
    and the rows of every other realm are unchanged. *)
Theorem syncState_deleteByRealmId :
  forall realm db,
    (forall ot, get realm ot (SyncStateRepository.deleteByRealmId realm db) =
       {| realmId := realm; objectType := ot; lastSyncAttempt := None;
          lastSyncSuccess := None; status := PENDING; cursor := None;
          errorMessage := None; createdAt := None; updatedAt := None |}) /\
    (forall k, k.1 <> realm ->
       SyncStateRepository.deleteByRealmId realm db !! k = db !! k).
Proof.
  intros realm db. unfold SyncStateRepository.deleteByRealmId. split.
  - intros ot. apply get_None. apply map_lookup_filter_None. right.
    intros x _ Hx. apply Hx. reflexivity.
  - intros k Hk. rewrite map_lookup_filter.
    destruct (db !! k) as [x|]; simpl; [|done].
    rewrite option_guard_True; done.
Qed.

(** X4 (a returned cycle leaves no row in progress).  When [sync()] of
    either engine returns, [isInProgress] is false for the engine's row,
    and the cycle returned [(synced, 0)] with status success or [(0, 1)]
    with status failure.  [sync()] rejects only with the error of a write
    of its [catch] block: the invoice engine's [markFailure], or the
    customer engine's [markFailure] or failure [create]. *)
Theorem returned_cycle_not_in_progress :
  (forall realm env w,
     match fst (invoice_sync realm env w) with
     | Ret (s, e) =>
         SyncStateRepository.isInProgress realm INVOICE (store (invoice_step realm env w)) = false /\
         (e = 0%nat /\ storedStatus realm INVOICE (invoice_step realm env w) = SUCCESS \/
          s = 0%nat /\ e = 1%nat /\ storedStatus realm INVOICE (invoice_step realm env w) = FAILURE)
     | Throw m => f_markFailure (faults env) = Some m
     end) /\
  (forall realm maxResults env w,
     match fst (customer_sync realm maxResults env w) with
     | Ret (s, e) =>
         SyncStateRepository.isInProgress realm CUSTOMER
           (store (customer_step realm maxResults env w)) = false /\
         (e = 0%nat /\ storedStatus realm CUSTOMER (customer_step realm maxResults env w) = SUCCESS \/
          s = 0%nat /\ e = 1%nat /\
          storedStatus realm CUSTOMER (customer_step realm maxResults env w) = FAILURE)
     | Throw m =>
         f_markFailure (faults env) = Some m \/
         (f_markFailure (faults env) = None /\ f_failureHistory (faults env) = Some m)
     end).
Proof.
  split.
  - intros realm env w. pose proof (invoice_sync_result realm env w) as Hs.
    destruct (fst (invoice_sync realm env w)) as [m|[s e]]; [exact Hs|].
    split; [|exact Hs]. unfold SyncStateRepository.isInProgress.
    apply bool_decide_eq_false_2. unfold storedStatus in Hs.
    destruct Hs as [[_ ->] | (_ & _ & ->)]; discriminate.
  - intros realm maxResults env w.
    pose proof (customer_sync_result realm maxResults env w) as Hs.
    destruct (fst (customer_sync realm maxResults env w)) as [m|[s e]]; [exact Hs|].
    split; [|exact Hs]. unfold SyncStateRepository.isInProgress.
    apply bool_decide_eq_false_2. unfold storedStatus in Hs.
    destruct Hs as [[_ ->] | (_ & _ & ->)]; discriminate.
Qed.

(** X5 (the engines' footprint).  An invoice cycle changes only its own
    sync-state row and the invoices table (no customer, no history row);
    a customer cycle changes only its own sync-state row, the customers
    table and the history log (no invoice). *)
Theorem engines_touch_only_their_row :
  (forall realm env w k,
     k <> key realm INVOICE ->
     store (invoice_step realm env w) !! k = store w !! k /\
     customers (invoice_step realm env w) = customers w /\
     history (invoice_step realm env w) = history w) /\
  (forall realm maxResults env w k,
     k <> key realm CUSTOMER ->
     store (customer_step realm maxResults env w) !! k = store w !! k /\
     invoices (customer_step realm maxResults env w) = invoices w).
Proof.
  split.
  - intros realm env w k Hk. unfold invoice_step. run_sync.
    all: repeat first [rewrite markInProgress_other | rewrite markSuccess_other | rewrite markFailure_other].
    all: first [exact Hk | done].
  - intros realm maxResults env w k Hk. unfold customer_step. run_sync.
    all: repeat first [rewrite markInProgress_other | rewrite markSuccess_other | rewrite markFailure_other].
    all: first [exact Hk | done].
Qed.

(** X6 ([SyncHistoryRepository.count]).  Without a realm, or with the
    empty realm, every row is counted (the object type is then ignored);
    for a non-empty realm the customer and invoice counts add up to the
    realm's count; [create] adds one to the count of its realm and type
    and leaves other counts alone. *)
Theorem history_count_filters :
  (forall ot log, SyncHistoryRepository.count None ot log = length log) /\
  (forall ot log, SyncHistoryRepository.count (Some "") ot log = length log) /\
  (forall r log, r <> "" ->
     (SyncHistoryRepository.count (Some r) (Some CUSTOMER) log +
      SyncHistoryRepository.count (Some r) (Some INVOICE) log)%nat =
     SyncHistoryRepository.count (Some r) None log) /\
  (forall r t now rec log, r <> "" ->
     SyncHistoryRepository.count (Some r) (Some t) (historyCreate now rec log) =
     (SyncHistoryRepository.count (Some r) (Some t) log +
      if bool_decide (h_realmId rec = r /\ h_objectType rec = t) then 1 else 0)%nat).
Proof.
  split; [|split; [|split]].
  - intros [] log; reflexivity.
  - intros [] log; reflexivity.
  - intros r log Hr. unfold SyncHistoryRepository.count, truthy.
    rewrite bool_decide_eq_false_2 by exact Hr. simpl.
    induction log as [|h log IH]; [reflexivity|]. simpl.
    destruct (h_objectType (hr_record h));
      repeat case_bool_decide; simpl; naive_solver lia.
  - intros r t now rec log Hr. unfold SyncHistoryRepository.count, truthy, historyCreate.
    rewrite bool_decide_eq_false_2 by exact Hr. simpl.
    rewrite List.filter_app, length_app. simpl. by case_bool_decide.
Qed.

(** X7 ([SyncHistoryRepository.deleteOlderThan]).  The number it returns
    plus the rows left is the number of rows before; a row is left exactly
    when it started at or after [now - days * 86400000]; running it again
    with the same arguments deletes nothing. *)
Theorem deleteOlderThan_partition :
  forall now days log,
    let '(n, kept) := SyncHistoryRepository.deleteOlderThan now days log in
    (n + length kept = length log)%nat /\
    (forall h, In h kept <->
       In h log /\ now - days * SyncHistoryRepository.msPerDay <= h_startedAt (hr_record h)) /\
    SyncHistoryRepository.deleteOlderThan now days kept = (0%nat, kept).
Proof.
  intros now days log. unfold SyncHistoryRepository.deleteOlderThan.
  set (c := now - days * SyncHistoryRepository.msPerDay).
  split; [|split].
  - induction log as [|h log IH]; [reflexivity|]. simpl.
    destruct (h_startedAt (hr_record h) <? c); simpl; lia.
  - intros h. rewrite filter_In, Bool.negb_true_iff, Z.ltb_ge. reflexivity.
  - induction log as [|h log IH]; [reflexivity|]. simpl.
    destruct (h_startedAt (hr_record h) <? c) eqn:E; simpl; [exact IH|].
    rewrite E. simpl. injection IH as -> ->. reflexivity.
Qed.

(** X8 (the customer engine's history row).  Every customer cycle that
    returns a result appends one row for its realm and type, with the
    start time, with a duration and completion time that [create] turns
    into NULL when they are 0, and whose status and records_failed agree
    with the final sync-state status. *)
Theorem customer_cycle_history_row :
  forall realm maxResults env w res,
  fst (customer_sync realm maxResults env w) = Ret res ->
  exists rec,
    history (customer_step realm maxResults env w) =
      history w ++ [mkHistoryRow rec (t_end env)] /\
    h_realmId rec = realm /\ h_objectType rec = CUSTOMER /\
    h_startedAt rec = t_start env /\
    h_durationMs rec =
      (if t_end env - t_start env =? 0 then None else Some (t_end env - t_start env)) /\
    h_completedAt rec = (if t_end env =? 0 then None else Some (t_end env)) /\
    ((h_status rec = H_SUCCESS /\ h_recordsFailed rec = 0%nat /\ h_errorMessage rec = None /\
      storedStatus realm CUSTOMER (customer_step realm maxResults env w) = SUCCESS) \/
     (h_status rec = H_FAILURE /\ h_recordsFailed rec = 1%nat /\
      storedStatus realm CUSTOMER (customer_step realm maxResults env w) = FAILURE)).
Proof.
  intros realm maxResults env w res Hres. unfold customer_step. revert Hres. run_sync.
  all: intros Hres; try discriminate Hres.
  all: unfold historyCreate; eexists; split; [reflexivity|]; simpl.
  all: do 3 (split; [reflexivity|]).
  all: split; [destruct (t_end env - t_start env); reflexivity|].
  all: split; [destruct (t_end env); reflexivity|].
  all: first [left; repeat split; reflexivity | right; repeat split; reflexivity].
Qed.

(** X9 (a batch stays written when [markSuccess] throws).  When the
    upsert of a non-empty batch succeeds and [markSuccess] throws, the
    upserted rows stay in the table and the cursor is the old one.  When
    the [catch] block's writes succeed, the cycle returns [(0, 1)] with
    the row marked failed, and the customer engine's failure row reports
    the batch size as records synced. *)
Theorem batch_kept_when_markSuccess_fails :
  (forall realm env w recs msg,
     f_markInProgress (faults env) = None -> f_get (faults env) = None ->
     f_upsert (faults env) = None -> f_markSuccess (faults env) = Some msg ->
     remote env (buildQuery (storedCursor realm INVOICE w) 1000) = Ret recs ->
     recs <> [] ->
     invoices (invoice_step realm env w) =
       invoice_batchUpsert (t_end env) (map (toInvoice realm) recs) (invoices w) /\
     storedCursor realm INVOICE (invoice_step realm env w) = storedCursor realm INVOICE w /\
     (f_markFailure (faults env) = None ->
      fst (invoice_sync realm env w) = Ret (0%nat, 1%nat) /\
      storedStatus realm INVOICE (invoice_step realm env w) = FAILURE)) /\
  (forall realm maxResults env w recs msg,
     f_markInProgress (faults env) = None -> f_get (faults env) = None ->
     f_upsert (faults env) = None -> f_markSuccess (faults env) = Some msg ->
     remote env (buildQuery (storedCursor realm CUSTOMER w) maxResults) = Ret recs ->
     recs <> [] ->
     customers (customer_step realm maxResults env w) =
       customer_batchUpsert (t_end env) (map (toCustomer realm) recs) (customers w) /\
     storedCursor realm CUSTOMER (customer_step realm maxResults env w) =
       storedCursor realm CUSTOMER w /\
     (f_markFailure (faults env) = None -> f_failureHistory (faults env) = None ->
      fst (customer_sync realm maxResults env w) = Ret (0%nat, 1%nat) /\
      storedStatus realm CUSTOMER (customer_step realm maxResults env w) = FAILURE /\
      exists h, history (customer_step realm maxResults env w) = history w ++ [h] /\
        h_status (hr_record h) = H_FAILURE /\
        h_recordsSynced (hr_record h) = length recs)).
Proof.
  split.
  - intros realm env w recs msg H1 H2 H3 H4 Hr Hne.
    unfold invoice_step, storedCursor, storedStatus in *.
    unfold invoice_sync, invoice_try, invoice_catch, try_then, st_bind, dbWrite, dbRead,
      remoteCall, st_ret.
    rewrite H1, H2, H3, H4. simpl. rewrite cursor_markInProgress, Hr.
    destruct (length recs =? 0)%nat eqn:E.
    { apply Nat.eqb_eq, length_zero_iff_nil in E. contradiction. }
    simpl. destruct (f_markFailure (faults env)); simpl.
    + rewrite cursor_markInProgress. split; [reflexivity|split; [reflexivity|]].
      intros; discriminate.
    + rewrite status_markFailure, cursor_markFailure, cursor_markInProgress.
      repeat split; reflexivity.
  - intros realm maxResults env w recs msg H1 H2 H3 H4 Hr Hne.
    unfold customer_step, storedCursor, storedStatus in *.
    unfold customer_sync, customer_try, customer_catch, tag, try_then, st_bind, dbWrite,
      dbRead, remoteCall, st_ret.
    rewrite H1, H2, H3, H4. simpl. rewrite cursor_markInProgress, Hr.
    destruct (length recs =? 0)%nat eqn:E.
    { apply Nat.eqb_eq, length_zero_iff_nil in E. contradiction. }
    simpl. destruct (f_markFailure (faults env)); simpl.
    + rewrite cursor_markInProgress. split; [reflexivity|split; [reflexivity|]].
      intros; discriminate.
    + destruct (f_failureHistory (faults env)); simpl;
        rewrite cursor_markFailure, cursor_markInProgress;
        (split; [reflexivity|split; [reflexivity|]]); [intros _ ?; discriminate|].
      intros _ _. rewrite status_markFailure.
      do 2 (split; [reflexivity|]).
      unfold historyCreate. eexists. split; [reflexivity|]. split; reflexivity.
Qed.

(** X10 (history failure after [markSuccess]).  When the customer
    engine's [create] of the success row throws, the cursor [markSuccess]
    advanced to the batch maximum stays, whatever the [catch] block does.
    If the [catch] block's [markFailure] throws as well, [sync()] rejects
    with its error and the row keeps status success.  Otherwise the row is
    marked failed; then either the failure row is logged (with the old
    cursor as cursor_after and the batch size as records synced) and the
    cycle returns [(0, 1)], or that [create] throws too and [sync()]
    rejects with no history row written. *)
Theorem history_fault_after_markSuccess :
  forall realm maxResults env w recs msg,
    f_markInProgress (faults env) = None -> f_get (faults env) = None ->
    f_upsert (faults env) = None -> f_markSuccess (faults env) = None ->
    f_history (faults env) = Some msg ->
    remote env (buildQuery (storedCursor realm CUSTOMER w) maxResults) = Ret recs ->
    recs <> [] ->
    storedCursor realm CUSTOMER (customer_step realm maxResults env w) = getMaxTimestamp recs /\
    (forall m, f_markFailure (faults env) = Some m ->
     fst (customer_sync realm maxResults env w) = Throw m /\
     storedStatus realm CUSTOMER (customer_step realm maxResults env w) = SUCCESS) /\
    (f_markFailure (faults env) = None ->
     storedStatus realm CUSTOMER (customer_step realm maxResults env w) = FAILURE /\
     (f_failureHistory (faults env) = None ->
      fst (customer_sync realm maxResults env w) = Ret (0%nat, 1%nat) /\
      exists h, history (customer_step realm maxResults env w) = history w ++ [h] /\
        h_status (hr_record h) = H_FAILURE /\
        h_recordsSynced (hr_record h) = length recs /\
        h_cursorAfter (hr_record h) = storedCursor realm CUSTOMER w) /\
     (forall m, f_failureHistory (faults env) = Some m ->
      fst (customer_sync realm maxResults env w) = Throw m /\
      history (customer_step realm maxResults env w) = history w)).
Proof.
  intros realm maxResults env w recs msg H1 H2 H3 H4 H5 Hr Hne.
  unfold customer_step, storedCursor, storedStatus in *.
  unfold customer_sync, customer_try, customer_catch, tag, try_then, st_bind, dbWrite,
    dbRead, remoteCall, st_ret.
  rewrite H1, H2, H3, H4, H5. simpl. rewrite cursor_markInProgress, Hr.
  destruct (length recs =? 0)%nat eqn:E.
  { apply Nat.eqb_eq, length_zero_iff_nil in E. contradiction. }
  simpl. destruct (f_markFailure (faults env)) eqn:E6; simpl.
  - rewrite cursor_markSuccess, status_markSuccess.
    split; [reflexivity|split; [|intros; discriminate]].
    intros m Hm. injection Hm as <-. split; reflexivity.
  - destruct (f_failureHistory (faults env)) eqn:E7; simpl;
      rewrite cursor_markFailure, cursor_markSuccess, status_markFailure;
      (split; [reflexivity|split; [intros; discriminate|]]);
      intros _; (split; [reflexivity|]).
    + split; [intros; discriminate|]. intros m Hm. injection Hm as <-.
      split; reflexivity.
    + split; [|intros; discriminate]. intros _. split; [reflexivity|].
      unfold historyCreate. eexists. split; [reflexivity|]. repeat split; reflexivity.
Qed.

(** X11 (early failure of a customer cycle).  When [markInProgress] or
    [get] throws, the stored cursor is unchanged; when the [catch] block's
    writes succeed, the failure row is logged with NULL cursor_before and
    cursor_after and 0 records synced, whatever cursor the state row
    holds. *)
Theorem early_failure_history_has_no_cursor :
  forall realm maxResults env w msg,
    (f_markInProgress (faults env) = Some msg \/
     (f_markInProgress (faults env) = None /\ f_get (faults env) = Some msg)) ->
    storedCursor realm CUSTOMER (customer_step realm maxResults env w) =
      storedCursor realm CUSTOMER w /\
    (f_markFailure (faults env) = None -> f_failureHistory (faults env) = None ->
     exists h, history (customer_step realm maxResults env w) = history w ++ [h] /\
       h_status (hr_record h) = H_FAILURE /\
       h_cursorBefore (hr_record h) = None /\ h_cursorAfter (hr_record h) = None /\
       h_recordsSynced (hr_record h) = 0%nat).
Proof.
  intros realm maxResults env w msg Hf.
  unfold customer_step, storedCursor.
  unfold customer_sync, customer_try, customer_catch, tag, try_then, st_bind, dbWrite,
    dbRead, remoteCall, st_ret.
  destruct Hf as [H1 | [H1 H2]]; rewrite H1; [|rewrite H2]; simpl.
  all: split; [destruct (f_markFailure (faults env)), (f_failureHistory (faults env)); simpl;
               rewrite ?cursor_markFailure, ?cursor_markInProgress; reflexivity|].
  all: intros -> ->; simpl.
  all: unfold historyCreate; eexists; (split; [reflexivity|]); repeat split; reflexivity.
Qed.

Section RealmTables.
Context {Row : Type}.
Variable realmOf : Row -> string.

Lemma realm_count_after_delete realm r' (m : gmap string Row) :
  size (filter (fun kv : string * Row => realmOf kv.2 = r')
          (filter (fun kv : string * Row => realmOf kv.2 <> realm) m)) =
  if bool_decide (r' = realm) then 0%nat
  else size (filter (fun kv : string * Row => realmOf kv.2 = r') m).
Proof.
  rewrite map_filter_filter. case_bool_decide as Hr.
  - subst r'. apply map_size_empty_iff, map_empty_filter_2.
    intros i x _ [H1 H2]. contradiction.
  - f_equal. apply map_filter_ext. intros i x _. simpl. split; [tauto|].
    intros H. split; [exact H|]. congruence.
Qed.

Lemma realm_size_split realm (m : gmap string Row) :
  size m = (size (filter (fun kv : string * Row => realmOf kv.2 = realm) m) +
            size (filter (fun kv : string * Row => realmOf kv.2 <> realm) m))%nat.
Proof.
  rewrite <- (map_filter_union_complement (fun kv : string * Row => realmOf kv.2 = realm) m)
    at 1.
  apply map_size_disj_union, map_disjoint_filter_complement.
Qed.

Lemma realm_count_move (m : gmap string Row) i x y a b :
  m !! i = Some y -> realmOf y = a -> realmOf x = b -> a <> b ->
  S (size (filter (fun kv : string * Row => realmOf kv.2 = a) (<[i := x]> m))) =
    size (filter (fun kv : string * Row => realmOf kv.2 = a) m) /\
  size (filter (fun kv : string * Row => realmOf kv.2 = b) (<[i := x]> m)) =
    S (size (filter (fun kv : string * Row => realmOf kv.2 = b) m)).
Proof.
  intros Hi Hy Hx Hab. split.
  - rewrite map_filter_insert_False by (simpl; congruence).
    rewrite map_filter_delete, map_size_delete_Some.
    + assert (Hs : is_Some (filter (fun kv : string * Row => realmOf kv.2 = a) m !! i)).
      { exists y. apply map_lookup_filter_Some_2; done. }
      apply map_size_ne_0_lookup_2 in Hs. lia.
    + exists y. apply map_lookup_filter_Some_2; done.
  - rewrite map_filter_insert_True by done.
    apply map_size_insert_None. apply map_lookup_filter_None_2. right.
    intros z Hz. simpl. rewrite Hi in Hz. injection Hz as <-. congruence.
Qed.

End RealmTables.

Lemma or_null_not_empty s : or_null s <> Some "".
Proof. destruct s as [[|a s]|]; simpl; congruence. Qed.

Lemma countByCustomerId_zero cid tbl :
  InvoiceRepository.countByCustomerId cid tbl = 0%nat <->
  map_Forall (fun _ r => ir_customerId r <> Some cid) tbl.
Proof.
  unfold InvoiceRepository.countByCustomerId.
  rewrite map_size_empty_iff, map_empty_filter. reflexivity.
Qed.

(** X12 ([deleteByRealmId] and [countByRealmId] of both entity
    repositories).  After deleting a realm its count is 0, every other
    realm keeps its count, and the rows removed are exactly as many as the
    realm counted before. *)
Theorem deleteByRealmId_counts :
  (forall realm tbl,
     CustomerRepository.countByRealmId realm (CustomerRepository.deleteByRealmId realm tbl) = 0%nat /\
     (forall r', r' <> realm ->
        CustomerRepository.countByRealmId r' (CustomerRepository.deleteByRealmId realm tbl) =
        CustomerRepository.countByRealmId r' tbl) /\
     size tbl = (size (CustomerRepository.deleteByRealmId realm tbl) +
                 CustomerRepository.countByRealmId realm tbl)%nat) /\
  (forall realm tbl,
     InvoiceRepository.countByRealmId realm (InvoiceRepository.deleteByRealmId realm tbl) = 0%nat /\
     (forall r', r' <> realm ->
        InvoiceRepository.countByRealmId r' (InvoiceRepository.deleteByRealmId realm tbl) =
        InvoiceRepository.countByRealmId r' tbl) /\
     size tbl = (size (InvoiceRepository.deleteByRealmId realm tbl) +
                 InvoiceRepository.countByRealmId realm tbl)%nat).
Proof.
  split; intros realm tbl;
    unfold CustomerRepository.countByRealmId, CustomerRepository.deleteByRealmId,
      InvoiceRepository.countByRealmId, InvoiceRepository.deleteByRealmId.
  - split; [|split].
    + rewrite realm_count_after_delete. by rewrite bool_decide_eq_true_2.
    + intros r' Hr. rewrite realm_count_after_delete. by rewrite bool_decide_eq_false_2.
    + rewrite (realm_size_split cr_realmId realm tbl). lia.
  - split; [|split].
    + rewrite realm_count_after_delete. by rewrite bool_decide_eq_true_2.
    + intros r' Hr. rewrite realm_count_after_delete. by rewrite bool_decide_eq_false_2.
    + rewrite (realm_size_split ir_realmId realm tbl). lia.
Qed.

(** X13 (a customer id shared by two realms).  The customers table is
    keyed by the remote id alone: upserting a customer whose id is stored
    under another realm moves the row to the new realm (created_at kept),
    the old realm's count drops by one and the new realm's grows by one. *)
Theorem upsert_moves_row_between_realms :
  forall now tbl c r,
    tbl !! cu_id c = Some r -> cr_realmId r <> cu_realmId c ->
    CustomerRepository.findById (cu_id c) (customer_batchUpsert now [c] tbl) =
      Some (mkCustomerRow (cu_realmId c) (cu_rawData c) (cr_createdAt r) now) /\
    S (CustomerRepository.countByRealmId (cr_realmId r) (customer_batchUpsert now [c] tbl)) =
      CustomerRepository.countByRealmId (cr_realmId r) tbl /\
    CustomerRepository.countByRealmId (cu_realmId c) (customer_batchUpsert now [c] tbl) =
      S (CustomerRepository.countByRealmId (cu_realmId c) tbl).
Proof.
  intros now tbl c r Hr Hne.
  unfold CustomerRepository.findById, CustomerRepository.countByRealmId.
  simpl. unfold customerUpsertRow. rewrite Hr.
  split; [apply lookup_insert_eq|].
  eapply realm_count_move; [exact Hr | reflexivity | reflexivity | exact Hne].
Qed.

(** X14 (an empty CustomerRef is stored as NULL).  Batch upserts never
    store the empty string as customer_id, so the count of invoices with
    the empty customer id stays 0 from a table that had none. *)
Theorem invoice_empty_customer_ref_never_stored :
  forall now is tbl,
    InvoiceRepository.countByCustomerId "" tbl = 0%nat ->
    InvoiceRepository.countByCustomerId "" (invoice_batchUpsert now is tbl) = 0%nat.
Proof.
  intros now is tbl. rewrite !countByCustomerId_zero, invoice_batchUpsert_fold.
  revert tbl. induction is as [|i is IH]; intros tbl H; [exact H|].
  simpl. apply IH. rewrite invoice_up_eq.
  apply map_Forall_insert_2; [apply or_null_not_empty | exact H].
Qed.

(** X15 ([TokenRepository.save] then a query).  After [save], the row
    holds the saved tokens and expiry, updated_at is the save time and
    created_at is kept from an earlier row; a query before the expiry
    window sends the saved access token without any refresh, and a query
    inside it first calls the refresher with the saved refresh token. *)
Theorem save_then_query :
  forall now data ce q tbl ev,
    let s1 := mkClientState (TokenRepository.save now data tbl) ev in
    (exists td, TokenRepository.findByRealmId (td_realmId data) (TokenRepository.save now data tbl) = Some td /\
       td_accessToken td = td_accessToken data /\ td_refreshToken td = td_refreshToken data /\
       td_expiresAt td = td_expiresAt data /\ td_updatedAt td = now /\
       td_createdAt td = created_in td_createdAt tbl (td_realmId data) now) /\
    (nowCheck ce < td_expiresAt data - bufferMs ->
       qb_query (td_realmId data) ce q s1 =
         (api ce (td_accessToken data) q,
          mkClientState (tokens s1) (ev ++ [EvApiGet (td_accessToken data) q]))) /\
    (td_expiresAt data - bufferMs <= nowCheck ce ->
       exists rest, events (snd (qb_query (td_realmId data) ce q s1)) =
         ev ++ EvRefresh (td_refreshToken data) :: rest).
Proof.
  intros now data ce q tbl ev s1.
  assert (Hl : exists td, TokenRepository.save now data tbl !! td_realmId data = Some td /\
       td_accessToken td = td_accessToken data /\ td_refreshToken td = td_refreshToken data /\
       td_expiresAt td = td_expiresAt data /\ td_updatedAt td = now /\
       td_createdAt td = created_in td_createdAt tbl (td_realmId data) now).
  { unfold TokenRepository.save, created_in.
    destruct (tbl !! td_realmId data); rewrite lookup_insert_eq;
      eexists; (split; [reflexivity|]); repeat split. }
  destruct Hl as (td & Htd & Ha & Hr & He & _).
  split; [|split].
  - unfold TokenRepository.findByRealmId, TokenRepository.save, created_in.
    destruct (tbl !! td_realmId data); rewrite lookup_insert_eq;
      eexists; (split; [reflexivity|]); repeat split.
  - intros Hexp. unfold qb_query, st_bind, getValidToken. subst s1. simpl.
    rewrite Htd, bool_decide_eq_false_2 by lia. rewrite Ha. reflexivity.
  - intros Hexp. unfold qb_query, st_bind, getValidToken. subst s1. simpl.
    rewrite Htd, bool_decide_eq_true_2 by lia.
    unfold try_then, refreshBlock, st_bind, callRefresher, saveTokens, throwC, st_ret, apiGet.
    simpl. rewrite Hr.
    destruct (refresher ce (td_refreshToken data)); simpl;
      eexists; rewrite <- ?app_assoc; reflexivity.
Qed.

(** X16 ([TokenRepository.delete] then a query).  After deleting a
    realm's tokens a query fails with the authorization-required error
    and changes nothing; other realms' rows are unchanged. *)
Theorem delete_then_query_unauthorized :
  forall realm ce q tbl ev,
    qb_query realm ce q (mkClientState (TokenRepository.delete realm tbl) ev) =
      (Throw (noTokensMsg realm), mkClientState (TokenRepository.delete realm tbl) ev) /\
    (forall realm', realm' <> realm ->
       TokenRepository.findByRealmId realm' (TokenRepository.delete realm tbl) =
       TokenRepository.findByRealmId realm' tbl).
Proof.
  intros realm ce q tbl ev. split.
  - unfold qb_query, st_bind, getValidToken, TokenRepository.delete. simpl.
    rewrite lookup_delete_eq. reflexivity.
  - intros realm' Hne. unfold TokenRepository.findByRealmId, TokenRepository.delete.
    by rewrite lookup_delete_ne.
Qed.

(** X17 (failed refresh).  When the refresher rejects, the query fails
    with the re-authorize message and sends no request, and the token row
    is unchanged; with [refreshAccessToken] as refresher the inner message
    is its own "Token refresh failed: " text (the data error when truthy,
    otherwise the HTTP error message). *)
Theorem refresh_failure_keeps_tokens :
  (forall realm ce q s td e,
     tokens s !! realm = Some td ->
     td_expiresAt td - bufferMs <= nowCheck ce ->
     refresher ce (td_refreshToken td) = Throw e ->
     qb_query realm ce q s =
       (Throw (refreshFailedMsg e),
        mkClientState (tokens s) (events s ++ [EvRefresh (td_refreshToken td)]))) /\
  (forall post rt err,
     post rt = Throw err ->
     refreshAccessToken post rt =
       Throw (String.append "Token refresh failed: "
                (match response_data_error err with
                 | Some s => if truthy s then s else message err
                 | None => message err
                 end))).
Proof.
  split.
  - intros realm ce q s td e Hs Hexp Hr.
    unfold qb_query, st_bind, getValidToken. rewrite Hs, bool_decide_eq_true_2 by exact Hexp.
    unfold try_then, refreshBlock, st_bind, callRefresher, throwC. rewrite Hr. reflexivity.
  - intros post rt err H. unfold refreshAccessToken. rewrite H. reflexivity.
Qed.

(** X18 (a refreshed token is reused).  After a query that refreshed
    the tokens, a later query whose clock is before the new expiry minus
    the 5-minute buffer sends the new access token without refreshing
    again. *)
Theorem refreshed_token_reused :
  forall realm ce ce2 q q2 s td resp,
    tokens s !! realm = Some td ->
    td_expiresAt td - bufferMs <= nowCheck ce ->
    refresher ce (td_refreshToken td) = Ret resp ->
    nowCheck ce2 < nowPersist ce + expires_in resp * 1000 - bufferMs ->
    let s1 := snd (qb_query realm ce q s) in
    qb_query realm ce2 q2 s1 =
      (api ce2 (access_token resp) q2,
       mkClientState (tokens s1) (events s1 ++ [EvApiGet (access_token resp) q2])).
Proof.
  intros realm ce ce2 q q2 s td resp Hs Hexp Hr Hnow s1.
  assert (Hs1 : tokens s1 !! realm =
    Some (mkTokenData (td_realmId td) (access_token resp) (refresh_token resp)
            (nowPersist ce + expires_in resp * 1000) (td_createdAt td) (nowPersist ce))).
  { subst s1. unfold qb_query, st_bind, getValidToken.
    rewrite Hs, bool_decide_eq_true_2 by exact Hexp.
    unfold try_then, refreshBlock, st_bind, callRefresher. rewrite Hr. simpl.
    unfold tokenUpdate. rewrite Hs. apply lookup_insert_eq. }
  unfold qb_query at 1, st_bind at 1, getValidToken.
  rewrite Hs1. simpl. rewrite bool_decide_eq_false_2 by lia. reflexivity.
Qed.

(** X19 ([performSync] of the sequential worker).  Without an active
    realm (no row or an empty realm id) nothing runs; otherwise the
    customer cycle runs and then the invoice cycle on its result, even
    when the customer [sync()] rejected.  Each engine adds one error when
    its [sync()] rejected; otherwise one when its row ended failed plus
    one when its [getStats] threw. *)
Theorem performSync_totals :
  (forall maxResults envC envI statsC statsI w,
     performSync None maxResults envC envI statsC statsI w = (None, w) /\
     performSync (Some "") maxResults envC envI statsC statsI w = (None, w)) /\
  (forall realm maxResults envC envI statsC statsI w,
     realm <> "" ->
     let w1 := customer_step realm maxResults envC w in
     let w2 := invoice_step realm envI w1 in
     snd (performSync (Some realm) maxResults envC envI statsC statsI w) = w2 /\
     exists synced,
       fst (performSync (Some realm) maxResults envC envI statsC statsI w) =
         Some (synced,
               (cycle_errors (fst (customer_sync realm maxResults envC w))
                  (storedStatus realm CUSTOMER w1) statsC +
                cycle_errors (fst (invoice_sync realm envI w1))
                  (storedStatus realm INVOICE w2) statsI)%nat)).
Proof.
  split.
  - intros. split; reflexivity.
  - intros realm maxResults envC envI statsC statsI w Hr w1 w2.
    assert (Ho : or_null (Some realm) = Some realm).
    { destruct realm; [contradiction|reflexivity]. }
    pose proof (customer_sync_result realm maxResults envC w) as Hsc.
    pose proof (invoice_sync_result realm envI w1) as Hsi.
    subst w2 w1. unfold customer_step, invoice_step in *.
    unfold performSync. rewrite Ho.
    destruct (customer_sync realm maxResults envC w) as [rc v1] eqn:Ec.
    simpl in Hsc, Hsi |- *.
    destruct (invoice_sync realm envI v1) as [ri v2] eqn:Ei.
    simpl in Hsi |- *.
    destruct rc as [mc|[s1 e1]].
    2: destruct Hsc as [[-> Hst1] | (-> & -> & Hst1)]; rewrite Hst1.
    all: destruct ri as [mi|[s2 e2]].
    all: try (destruct Hsi as [[-> Hst2] | (-> & -> & Hst2)]; rewrite Hst2).
    all: unfold cycle_errors.
    all: repeat first [ rewrite bool_decide_eq_true_2 by reflexivity
                      | rewrite bool_decide_eq_false_2 by discriminate ].
    all: destruct statsC, statsI; simpl; (split; [reflexivity|]);
         eexists; f_equal; f_equal; lia.
Qed.

Lemma parseArgs_full_mono {Num} (parseInt : string -> Num) :
  forall args (o : Options), full o = true -> full (parseArgs_loop parseInt args o) = true.
Proof.
  fix IH 1. intros [|a rest] o Ho; [exact Ho|]. simpl.
  case_bool_decide; [apply IH; reflexivity|].
  case_bool_decide; [destruct rest as [|v rest']; [exact Ho | apply IH; exact Ho]|].
  case_bool_decide; [|apply IH; exact Ho].
  destruct rest as [|v rest']; [exact Ho|]. apply IH.
  repeat case_bool_decide; exact Ho.
Qed.

(** X20 ([parseArgs] of the history script).  No argument gives the
    defaults; [--full] as a flag sets [full] for good; a trailing
    [--limit] sets the limit to [parseInt('10')]; a trailing [--type] and
    a [--type] value other than customer or invoice change nothing (the
    value is still consumed). *)
Theorem parseArgs_behaviour :
  forall {Num} (parseInt : string -> Num) (ten : Num),
  parseArgs parseInt ten [] = mkOptions false ten None /\
  (forall args o, full o = true -> full (parseArgs_loop parseInt args o) = true) /\
  (forall rest o, full (parseArgs_loop parseInt ("--full" :: rest) o) = true) /\
  (forall o, parseArgs_loop parseInt ["--limit"] o =
             mkOptions (full o) (parseInt "10") (optObjectType o)) /\
  (forall o, parseArgs_loop parseInt ["--type"] o = o) /\
  (forall v rest o, v <> "customer" -> v <> "invoice" ->
     parseArgs_loop parseInt ("--type" :: v :: rest) o = parseArgs_loop parseInt rest o).
Proof.
  intros Num parseInt ten. split; [reflexivity|]. split; [apply parseArgs_full_mono|].
  split; [|split; [|split]].
  - intros rest o. simpl. apply parseArgs_full_mono. reflexivity.
  - intros o. reflexivity.
  - intros o. reflexivity.
  - intros v rest o Hc Hi. simpl.
    rewrite (bool_decide_eq_false_2 (v = "customer")) by exact Hc.
    rewrite (bool_decide_eq_false_2 (v = "invoice")) by exact Hi. reflexivity.
Qed.

Lemma validateConfig_ok clientId clientSecret :
  validateConfig clientId clientSecret = Ret tt <-> clientId <> "" /\ clientSecret <> "".
Proof.
  unfold validateConfig, truthy.
  destruct (bool_decide (clientId = "")) eqn:E1, (bool_decide (clientSecret = "")) eqn:E2;
    simpl; apply bool_decide_eq_true in E1 || apply bool_decide_eq_false in E1;
    apply bool_decide_eq_true in E2 || apply bool_decide_eq_false in E2;
    split; try discriminate; intuition.
Qed.

(** X21 ([bootstrap]).  Unless the script completes, the tokens table
    is unchanged; when it completes, the credentials, the authorization
    code and the realm id were non-empty, there was no row for the realm
    or the answer lowercased to "yes", the exchange returned tokens, and
    the table is the result of [save] with them and expiry
    [now + expires_in * 1000]. *)
Theorem bootstrap_outcomes :
  forall toLowerCase be tbl,
    (fst (bootstrap toLowerCase be tbl) <> Completed -> snd (bootstrap toLowerCase be tbl) = tbl) /\
    (fst (bootstrap toLowerCase be tbl) = Completed ->
       b_clientId be <> "" /\ b_clientSecret be <> "" /\
       exists authCode realm tokens,
         b_authCode be = Some authCode /\ b_realmId be = Some realm /\
         authCode <> "" /\ realm <> "" /\
         (tbl !! realm = None \/ toLowerCase (b_answer be) = "yes") /\
         b_exchange be authCode realm = Ret tokens /\
         snd (bootstrap toLowerCase be tbl) =
           TokenRepository.save (b_nowSave be)
             (mkTokenData realm (access_token tokens) (refresh_token tokens)
                (b_nowExpires be + expires_in tokens * 1000) 0 0) tbl).
Proof.
  intros toLowerCase be tbl. unfold bootstrap.
  destruct (validateConfig (b_clientId be) (b_clientSecret be)) as [e|[]] eqn:Ev;
    [split; [reflexivity | discriminate]|].
  apply validateConfig_ok in Ev as [Hid Hsec].
  destruct (b_authCode be) as [authCode|] eqn:Ea; [|split; [reflexivity | discriminate]].
  destruct (b_realmId be) as [realm|] eqn:Er; [|split; [reflexivity | discriminate]].
  destruct (truthy authCode) eqn:Ta; [|split; [reflexivity | discriminate]].
  destruct (truthy realm) eqn:Tr; [|split; [reflexivity | discriminate]]. simpl.
  unfold TokenRepository.findByRealmId.
  destruct (tbl !! realm) as [t|] eqn:Et.
  - case_bool_decide as Hy; [|split; [reflexivity | discriminate]].
    destruct (b_exchange be authCode realm) as [e|tokens] eqn:Ex;
      [split; [reflexivity | discriminate]|].
    split; [intros H; contradiction H; reflexivity|]. intros _.
    unfold truthy in Ta, Tr. apply negb_true_iff, bool_decide_eq_false in Ta, Tr.
    do 2 (split; [assumption|]). exists authCode, realm, tokens. tauto.
  - destruct (b_exchange be authCode realm) as [e|tokens] eqn:Ex;
      [split; [reflexivity | discriminate]|].
    split; [intros H; contradiction H; reflexivity|]. intros _.
    unfold truthy in Ta, Tr. apply negb_true_iff, bool_decide_eq_false in Ta, Tr.
    do 2 (split; [assumption|]). exists authCode, realm, tokens. tauto.
Qed.

(** X22 ([reset] forces a full resync).  [reset] leaves a pending row
    without cursor or error and keeps the last attempt and success times;
    the next invoice cycle then queries everything and ends with the
    batch maximum as cursor. *)
Theorem reset_forces_full_resync :
  (forall realm ot now db,
     let r := get realm ot (reset realm ot now db) in
     status r = PENDING /\ cursor r = None /\ errorMessage r = None /\
     lastSyncSuccess r = lastSyncSuccess (get realm ot db) /\
     lastSyncAttempt r = lastSyncAttempt (get realm ot db)) /\
  (forall realm now env w recs,
     faults env = no_faults ->
     remote env (QAll 1000) = Ret recs ->
     let w' := invoice_step realm env (on_store (reset realm INVOICE now) w) in
     invoices w' = invoice_batchUpsert (t_end env) (map (toInvoice realm) recs) (invoices w) /\
     storedCursor realm INVOICE w' = getMaxTimestamp recs).
Proof.
  split.
  - intros realm ot now db r. subst r. unfold get, reset.
    destruct (db !! key realm ot); rewrite lookup_insert_eq; repeat split.
  - intros realm now env w recs Hf Hr w'. subst w'.
    unfold invoice_step, storedCursor.
    unfold invoice_sync, invoice_try, try_then, st_bind, dbWrite, dbRead, remoteCall, st_ret.
    rewrite Hf. simpl. rewrite cursor_markInProgress.
    assert (Hc : cursor (get realm INVOICE (reset realm INVOICE now (store w))) = None).
    { unfold get, reset. destruct (store w !! key realm INVOICE); by rewrite lookup_insert_eq. }
    rewrite Hc. simpl. rewrite Hr.
    destruct recs as [|x recs]; simpl; rewrite cursor_markSuccess; split; reflexivity.
Qed.

(** ** Witnesses of the further properties *)

(** X6 on the log of one customer cycle. *)
Lemma history_count_filters_witness :
  (SyncHistoryRepository.count (Some "r") (Some CUSTOMER)
     (history (customer_step "r" 1000 (env_at (remote_of data3) 10) world0)) +
   SyncHistoryRepository.count (Some "r") (Some INVOICE)
     (history (customer_step "r" 1000 (env_at (remote_of data3) 10) world0)))%nat =
  SyncHistoryRepository.count (Some "r") None
    (history (customer_step "r" 1000 (env_at (remote_of data3) 10) world0)).
Proof.
  apply (proj1 (proj2 (proj2 history_count_filters))). discriminate.
Defined.

(** X8 with the network down on a first customer cycle: the failure row
    records a duration of 5. *)
Lemma customer_cycle_history_row_witness :
  exists rec,
    history (customer_step "r" 1000 (env_at remote_down 10) world0) =
      history world0 ++ [mkHistoryRow rec 15] /\
    h_durationMs rec = Some 5.
Proof.
  destruct (customer_cycle_history_row "r" 1000 (env_at remote_down 10) world0 (0%nat, 1%nat)
              ltac:(vm_compute; reflexivity)) as (rec & Hh & _ & _ & _ & Hd & _).
  exists rec. split; [exact Hh|]. rewrite Hd. reflexivity.
Defined.

(** X9 with [markSuccess] throwing after a first batch of three records. *)
Lemma batch_kept_when_markSuccess_fails_witness :
  invoices (invoice_step "r" (mkEnv (remote_of data3) markSuccess_fails 10 15) world0) =
    invoice_batchUpsert 15 (map (toInvoice "r") data3) (invoices world0) /\
  fst (invoice_sync "r" (mkEnv (remote_of data3) markSuccess_fails 10 15) world0) =
    Ret (0%nat, 1%nat) /\
  customers (customer_step "r" 1000 (mkEnv (remote_of data3) markSuccess_fails 10 15) world0) =
    customer_batchUpsert 15 (map (toCustomer "r") data3) (customers world0) /\
  fst (customer_sync "r" 1000 (mkEnv (remote_of data3) markSuccess_fails 10 15) world0) =
    Ret (0%nat, 1%nat).
Proof.
  destruct (proj1 batch_kept_when_markSuccess_fails "r"
              (mkEnv (remote_of data3) markSuccess_fails 10 15) world0 data3 "locked"
              eq_refl eq_refl eq_refl eq_refl ltac:(vm_compute; reflexivity)
              ltac:(discriminate)) as (Hi & _ & Hf).
  destruct (proj2 batch_kept_when_markSuccess_fails "r" 1000
              (mkEnv (remote_of data3) markSuccess_fails 10 15) world0 data3 "locked"
              eq_refl eq_refl eq_refl eq_refl ltac:(vm_compute; reflexivity)
              ltac:(discriminate)) as (Hc & _ & Hg).
  split; [exact Hi|]. split; [exact (proj1 (Hf eq_refl))|].
  split; [exact Hc|]. exact (proj1 (Hg eq_refl eq_refl)).
Defined.

(** X10 with every history insert failing (a full disk) on a first
    customer cycle of three records: [sync()] rejects, no history row is
    written, the row is failed and the cursor is 3. *)
Lemma history_fault_after_markSuccess_witness :
  storedCursor "r" CUSTOMER
    (customer_step "r" 1000 (mkEnv (remote_of data3) history_down 10 15) world0) = Some 3 /\
  storedStatus "r" CUSTOMER
    (customer_step "r" 1000 (mkEnv (remote_of data3) history_down 10 15) world0) = FAILURE /\
  fst (customer_sync "r" 1000 (mkEnv (remote_of data3) history_down 10 15) world0) =
    Throw "disk full" /\
  history (customer_step "r" 1000 (mkEnv (remote_of data3) history_down 10 15) world0) = [].
Proof.
  destruct (history_fault_after_markSuccess "r" 1000
              (mkEnv (remote_of data3) history_down 10 15) world0 data3 "disk full"
              eq_refl eq_refl eq_refl eq_refl eq_refl ltac:(vm_compute; reflexivity)
              ltac:(discriminate)) as (Hc & _ & Hn).
  destruct (Hn eq_refl) as (Hs & _ & Ht).
  destruct (Ht "disk full" eq_refl) as [Hr Hh].
  rewrite Hc, Hs, Hr, Hh. split; [reflexivity|]. split; [reflexivity|]. split; reflexivity.
Defined.

(** X11 after a first sync to cursor 3, with [markInProgress] throwing:
    the cursor stays 3 and the failure row has no cursor. *)
Lemma early_failure_history_has_no_cursor_witness :
  storedCursor "r" CUSTOMER (customer_step "r" 1000
      (mkEnv (remote_of data4) markInProgress_fails 20 25)
      (customer_step "r" 1000 (env_at (remote_of data3) 10) world0)) = Some 3 /\
  exists h,
    history (customer_step "r" 1000 (mkEnv (remote_of data4) markInProgress_fails 20 25)
               (customer_step "r" 1000 (env_at (remote_of data3) 10) world0)) =
      history (customer_step "r" 1000 (env_at (remote_of data3) 10) world0) ++ [h] /\
    h_cursorBefore (hr_record h) = None /\ h_cursorAfter (hr_record h) = None.
Proof.
  destruct (early_failure_history_has_no_cursor "r" 1000
              (mkEnv (remote_of data4) markInProgress_fails 20 25)
              (customer_step "r" 1000 (env_at (remote_of data3) 10) world0) "locked"
              (or_introl eq_refl)) as [Hc Hh].
  split; [rewrite Hc; vm_compute; reflexivity|].
  destruct (Hh eq_refl eq_refl) as (h & Eh & _ & Hb & Ha & _).
  exists h. split; [exact Eh|]. split; assumption.
Defined.

(** X5: an invoice cycle leaves the customer row of the realm alone. *)
Lemma engines_touch_only_their_row_witness :
  store (invoice_step "r" (env_at (remote_of data3) 10) world0) !! key "r" CUSTOMER =
    store world0 !! key "r" CUSTOMER /\
  customers (invoice_step "r" (env_at (remote_of data3) 10) world0) = customers world0 /\
  history (invoice_step "r" (env_at (remote_of data3) 10) world0) = history world0.
Proof. apply (proj1 engines_touch_only_their_row). discriminate. Defined.

(** X12 with customers of realms "a" and "b". *)
Lemma deleteByRealmId_counts_witness :
  CustomerRepository.countByRealmId "b"
    (CustomerRepository.deleteByRealmId "a"
       (<["1" := mkCustomerRow "a" "{}" 5 5]> {["2" := mkCustomerRow "b" "{}" 5 5]})) =
  CustomerRepository.countByRealmId "b"
    (<["1" := mkCustomerRow "a" "{}" 5 5]> {["2" := mkCustomerRow "b" "{}" 5 5]}).
Proof.
  apply (proj1 (proj2 (proj1 deleteByRealmId_counts "a"
    (<["1" := mkCustomerRow "a" "{}" 5 5]> {["2" := mkCustomerRow "b" "{}" 5 5]}))) "b").
  discriminate.
Defined.

(** X13: customer "1" of realm "a" is upserted for realm "b". *)
Lemma upsert_moves_row_between_realms_witness :
  CustomerRepository.findById "1"
    (customer_batchUpsert 9 [mkCustomer "1" "b" "{}"] {["1" := mkCustomerRow "a" "{}" 5 5]}) =
    Some (mkCustomerRow "b" "{}" 5 9) /\
  S (CustomerRepository.countByRealmId "a"
       (customer_batchUpsert 9 [mkCustomer "1" "b" "{}"] {["1" := mkCustomerRow "a" "{}" 5 5]})) =
    CustomerRepository.countByRealmId "a" {["1" := mkCustomerRow "a" "{}" 5 5]} /\
  CustomerRepository.countByRealmId "b"
    (customer_batchUpsert 9 [mkCustomer "1" "b" "{}"] {["1" := mkCustomerRow "a" "{}" 5 5]}) =
    S (CustomerRepository.countByRealmId "b" {["1" := mkCustomerRow "a" "{}" 5 5]}).
Proof.
  apply (upsert_moves_row_between_realms 9 {["1" := mkCustomerRow "a" "{}" 5 5]}
           (mkCustomer "1" "b" "{}") (mkCustomerRow "a" "{}" 5 5) (lookup_singleton_eq _ _)).
  discriminate.
Defined.

(** X14: an invoice whose CustomerRef is the empty string. *)
Lemma invoice_empty_customer_ref_never_stored_witness :
  InvoiceRepository.countByCustomerId ""
    (invoice_batchUpsert 9 [mkInvoice "1" "r" (Some "") "{}"] ∅) = 0%nat.
Proof.
  apply (invoice_empty_customer_ref_never_stored 9 [mkInvoice "1" "r" (Some "") "{}"] ∅).
  reflexivity.
Defined.

(** X15: [token1] saved into an empty table, queried long before expiry. *)
Lemma save_then_query_witness :
  qb_query "r" (mkClientEnv (fun _ => Ret (mkOAuth "A2" "R2" 3600)) (fun _ _ => Ret []) 0 0) "q"
    (mkClientState (TokenRepository.save 0 token1 ∅) []) =
  (Ret [], mkClientState (TokenRepository.save 0 token1 ∅) [EvApiGet "A1" "q"]).
Proof.
  apply (proj1 (proj2 (save_then_query 0 token1
    (mkClientEnv (fun _ => Ret (mkOAuth "A2" "R2" 3600)) (fun _ _ => Ret []) 0 0) "q" ∅ []))).
  unfold bufferMs. simpl. lia.
Defined.

(** X17: the token endpoint rejects the refresh token of [token1]. *)
Lemma refresh_failure_keeps_tokens_witness :
  qb_query "r" refresh_rejects "q" (mkClientState {["r" := token1]} []) =
    (Throw (refreshFailedMsg "invalid_grant"),
     mkClientState {["r" := token1]} [EvRefresh "R1"]) /\
  refreshAccessToken (fun _ => Throw (mkHttpError (Some "invalid_grant") "status 400")) "R1" =
    Throw "Token refresh failed: invalid_grant".
Proof.
  split.
  - rewrite (proj1 refresh_failure_keeps_tokens "r" refresh_rejects "q"
               (mkClientState {["r" := token1]} []) token1 "invalid_grant"
               (lookup_singleton_eq _ _) ltac:(unfold bufferMs; simpl; lia) eq_refl).
    reflexivity.
  - rewrite (proj2 refresh_failure_keeps_tokens
               (fun _ => Throw (mkHttpError (Some "invalid_grant") "status 400")) "R1"
               (mkHttpError (Some "invalid_grant") "status 400") eq_refl).
    reflexivity.
Defined.

(** X18: [token1] refreshed to "A2" at its expiry, then a query 1000
    seconds later. *)
Lemma refreshed_token_reused_witness :
  qb_query "r" (mkClientEnv (fun _ => Ret (mkOAuth "A3" "R3" 3600)) (fun _ _ => Ret []) 2000000 0)
    "q2" (snd (qb_query "r" client_env "q" (mkClientState {["r" := token1]} []))) =
  (Ret [],
   mkClientState (tokens (snd (qb_query "r" client_env "q" (mkClientState {["r" := token1]} []))))
     (events (snd (qb_query "r" client_env "q" (mkClientState {["r" := token1]} []))) ++
      [EvApiGet "A2" "q2"])).
Proof.
  apply (refreshed_token_reused "r" client_env
           (mkClientEnv (fun _ => Ret (mkOAuth "A3" "R3" 3600)) (fun _ _ => Ret []) 2000000 0)
           "q" "q2" (mkClientState {["r" := token1]} []) token1 (mkOAuth "A2" "R2" 3600)
           (lookup_singleton_eq _ _));
    [unfold bufferMs; simpl; lia | reflexivity | unfold bufferMs; simpl; lia].
Defined.

(** X19: the database is locked during the customer cycle, whose [sync()]
    rejects; the invoice cycle still runs, syncs three records, and its
    [getStats] throws: two errors, and the invoice cursor is 3. *)
Lemma performSync_totals_witness :
  storedCursor "r" INVOICE
    (snd (performSync (Some "r") 1000 (mkEnv (remote_of data3) db_locked 10 15)
            (env_at (remote_of data3) 20) None (Some "busy") world0)) = Some 3 /\
  exists synced,
    fst (performSync (Some "r") 1000 (mkEnv (remote_of data3) db_locked 10 15)
           (env_at (remote_of data3) 20) None (Some "busy") world0) = Some (synced, 2%nat).
Proof.
  destruct (proj2 performSync_totals "r" 1000 (mkEnv (remote_of data3) db_locked 10 15)
              (env_at (remote_of data3) 20) None (Some "busy") world0 ltac:(discriminate))
    as [Hw [synced Hs]].
  split; [rewrite Hw; vm_compute; reflexivity|].
  exists synced. rewrite Hs. vm_compute. reflexivity.
Defined.

(** X20: [--type Customer] (wrong case) is consumed and ignored. *)
Lemma parseArgs_behaviour_witness :
  parseArgs_loop (fun s : string => s) ["--type"; "Customer"; "--full"] (mkOptions false "10" None) =
  parseArgs_loop (fun s : string => s) ["--full"] (mkOptions false "10" None).
Proof.
  apply (proj2 (proj2 (proj2 (proj2 (proj2 (parseArgs_behaviour (fun s : string => s) "10"))))));
    discriminate.
Defined.

(** X21: tokens exist for the realm and the answer is "no". *)
Lemma bootstrap_outcomes_witness :
  fst (bootstrap (fun s => s) (boot_env "no") {["r" := token1]}) = Exit0 /\
  snd (bootstrap (fun s => s) (boot_env "no") {["r" := token1]}) = {["r" := token1]}.
Proof.
  split; [vm_compute; reflexivity|].
  apply (proj1 (bootstrap_outcomes (fun s => s) (boot_env "no") {["r" := token1]})).
  vm_compute. discriminate.
Defined.

(** X22: a reset after a first invoice sync to cursor 3; the remote now
    holds four records. *)
Lemma reset_forces_full_resync_witness :
  invoices (invoice_step "r" (env_at (remote_of data4) 20)
              (on_store (reset "r" INVOICE 15)
                 (invoice_step "r" (env_at (remote_of data3) 10) world0))) =
    invoice_batchUpsert 25 (map (toInvoice "r") data4)
      (invoices (invoice_step "r" (env_at (remote_of data3) 10) world0)) /\
  storedCursor "r" INVOICE (invoice_step "r" (env_at (remote_of data4) 20)
    (on_store (reset "r" INVOICE 15)
       (invoice_step "r" (env_at (remote_of data3) 10) world0))) = getMaxTimestamp data4.
Proof.
  apply (proj2 reset_forces_full_resync "r" 15 (env_at (remote_of data4) 20)
           (invoice_step "r" (env_at (remote_of data3) 10) world0) data4); reflexivity.
Defined.
